(** * geoscript-js: schema and shape wrappers over the feature/styling engine

    A shallow embedding of [lib/geoscript/feature/schema.js] (the [Schema]
    wrapper, its [prepConfig] normaliser and its factory predicate) and of
    the [Shape] symbolizer, with their properties.

    Script values are modelled as trees; the wrapped engine (the feature-type
    builder, the point symbolizer) is modelled as explicit state that the
    wrappers' code threads through.  The modules this code requires and that
    are not verified here ([feature/field], [filter], [style/fill],
    [style/stroke], [geom], the string conversion of the host) are an
    interface, [FeatureCollaborators] and [StyleCollaborators]. *)

From Stdlib Require Import Floats.PrimFloat.
From stdpp Require Import base option list strings gmap pretty.

Local Open Scope string_scope.
Local Open Scope list_scope.

(** ** Script values *)

(** The wrapper classes whose instances can occur inside a configuration. *)
Inductive wrapper := Field | Expression | Fill | Stroke.

Definition wrapper_eqb (a b : wrapper) : bool :=
  match a, b with
  | Field, Field | Expression, Expression | Fill, Fill | Stroke, Stroke => true
  | _, _ => false
  end.

(** A configuration is plain data: primitives, arrays, plain objects (own
    enumerable properties in insertion order), and instances of the wrapper
    classes, each of which owns one handle of the engine ([_field],
    [_expression], [_fill], [_stroke]). *)
#[warnings="-register-all"]
Inductive value (Handle : Type) : Type :=
| VUndefined
| VNull
| VBool (b : bool)
| VNum (x : float)
| VStr (s : string)
| VArray (elements : list (value Handle))
| VObject (props : list (string * value Handle))
| VInstance (c : wrapper) (h : Handle).

Arguments VUndefined {Handle}.
Arguments VNull {Handle}.
Arguments VBool {Handle} b.
Arguments VNum {Handle} x.
Arguments VStr {Handle} s.
Arguments VArray {Handle} elements.
Arguments VObject {Handle} props.
Arguments VInstance {Handle} c h.

(** What the script can throw: [new Error(message)], or the [TypeError] the
    interpreter raises on a member access of [undefined]/[null] or on a call
    of something that is not a function.  [NoMatchingFactory] is the
    dispatcher's error. *)
Inductive error :=
| Error (message : string)
| TypeError
| NoMatchingFactory.

Inductive result (A : Type) : Type := OK (a : A) | Throw (e : error).
Arguments OK {A} a.
Arguments Throw {A} e.

(** State-and-exception monad: a throw keeps the state reached so far. *)
Definition M (S A : Type) : Type := S -> result A * S.

Definition ret {S A} (a : A) : M S A := fun s => (OK a, s).
Definition throw {S A} (e : error) : M S A := fun s => (Throw e, s).
Definition bind {S A B} (m : M S A) (k : A -> M S B) : M S B :=
  fun s => match m s with
           | (OK a, s') => k a s'
           | (Throw e, s') => (Throw e, s')
           end.
Definition lift {S A} (r : result A) : M S A := fun s => (r, s).
Definition modify {S} (f : S -> S) : M S unit := fun s => (OK tt, f s).

Notation "'let!' x ':=' m 'in' k" := (bind m (fun x => k))
  (at level 10, x name, m at level 100, k at level 200, only parsing).
Notation "'do!' m 'in' k" := (bind m (fun _ => k))
  (at level 10, m at level 100, k at level 200, only parsing).

Section Values.
Context {Handle : Type}.
Local Abbreviation value := (value Handle).

(** [typeof v] *)
Definition typeof (v : value) : string :=
  match v with
  | VUndefined => "undefined"
  | VBool _ => "boolean"
  | VNum _ => "number"
  | VStr _ => "string"
  | VNull | VArray _ | VObject _ | VInstance _ _ => "object"
  end.

(** ToBoolean: [undefined], [null], [false], [0], [-0], [NaN] and the
    empty string are falsy. *)
Definition truthy (v : value) : bool :=
  match v with
  | VUndefined | VNull => false
  | VBool b => b
  | VNum x => negb (PrimFloat.eqb x 0) && PrimFloat.eqb x x
  | VStr s => negb (String.eqb s "")
  | VArray _ | VObject _ | VInstance _ _ => true
  end.

(** [a || b] and [a && b] *)
Definition js_or (a b : value) : value := if truthy a then a else b.
Definition js_and (a b : value) : value := if truthy a then b else a.

(** [v instanceof Array] *)
Definition instanceof_Array (v : value) : bool :=
  match v with VArray _ => true | _ => false end.

(** Own properties of a plain object. *)
Fixpoint own (k : string) (ps : list (string * value)) : option value :=
  match ps with
  | [] => None
  | (k', v) :: ps' => if String.eqb k' k then Some v else own k ps'
  end.

(** [o[k] = v]: an existing key keeps its place, a new key goes last. *)
Fixpoint set_prop (k : string) (v : value) (ps : list (string * value))
  : list (string * value) :=
  match ps with
  | [] => [(k, v)]
  | (k', v') :: ps' =>
      if String.eqb k' k then (k, v) :: ps' else (k', v') :: set_prop k v ps'
  end.

(** The names every plain object inherits from [Object.prototype]
    (ECMAScript 15.2.4; a host may add more); the [in] operator sees
    them. *)
Definition Object_prototype : list string :=
  ["constructor"; "toString"; "toLocaleString"; "valueOf";
   "hasOwnProperty"; "isPrototypeOf"; "propertyIsEnumerable"].

(** [k in o] for a plain object [o] with own properties [ps]. *)
Definition js_in (k : string) (ps : list (string * value)) : bool :=
  bool_decide (is_Some (own k ps)) || bool_decide (k ∈ Object_prototype).

(** The [(key, value)] pairs a [for (k in v)] loop visits: the entries of
    a plain object, the indices of an array or of a string, nothing for
    the other primitives.  A wrapper instance is not a configuration
    mapping: its members are not enumerated. *)
Definition indexed {A} (f : A -> value) (xs : list A) : list (string * value) :=
  imap (fun i x => (pretty i, f x)) xs.

Definition for_in (v : value) : list (string * value) :=
  match v with
  | VObject ps => ps
  | VArray xs => indexed id xs
  | VStr s =>
      indexed (fun a => VStr (String a EmptyString)) (String.list_ascii_of_string s)
  | _ => []
  end.
End Values.

(** ** The modules [feature/schema] requires *)

(** [feature/field], [geom] and the host's string conversion, as far as
    [Schema] uses them.  A [Field] instance owns the engine's attribute
    descriptor [_field]; its accessors read that descriptor. *)
Class FeatureCollaborators (Handle : Type) := {
  (** [new Field(config)._field]; the constructor may throw. *)
  Field_constructor : value Handle -> result Handle;
  (** [field.name], [field.type] of the field that owns the descriptor *)
  Field_name : Handle -> string;
  Field_type : Handle -> string;
  (** [field.projection._projection], when [field.projection] is defined *)
  Field_projection : Handle -> option Handle;
  (** [field.config] *)
  Field_config : Handle -> value Handle;
  (** whether [GEOM[type]] is defined: [type] names a geometry class *)
  GEOM : string -> bool;
  (** ToString of the host on a value that is not a string *)
  ToString : value Handle -> string;
}.

Section Feature.
Context {Handle : Type} `{FeatureCollaborators Handle}.
Local Abbreviation value := (value Handle).

(** [v.k] for the members this module reads ([fields], [name], [type]) on
    a value that is neither [undefined] nor [null]. *)
Definition member (v : value) (k : string) : value :=
  match v with
  | VObject ps => default VUndefined (own k ps)
  | VInstance Field h =>
      if String.eqb k "name" then VStr (Field_name h)
      else if String.eqb k "type" then VStr (Field_type h)
      else VUndefined
  | _ => VUndefined
  end.

(** [v.k] where [v] may be [undefined] or [null]. *)
Definition member_of (v : value) (k : string) : result value :=
  match v with
  | VUndefined | VNull => Throw TypeError
  | _ => OK (member v k)
  end.

(** [v.forEach] is truthy: arrays inherit it; a plain object has it when it
    carries a truthy entry of that name (data, so not callable). *)
Definition has_forEach (v : value) : bool :=
  match v with
  | VArray _ => true
  | VObject ps => truthy (default VUndefined (own "forEach" ps))
  | _ => false
  end.

(** [s === v] for a primitive string [s] *)
Definition strict_equal_string (s : string) (v : value) : bool :=
  match v with VStr s' => String.eqb s s' | _ => false end.

(** the property key [v] stands for in [v in o] *)
Definition property_key (v : value) : string :=
  match v with VStr s => s | _ => ToString v end.

(** Modelled from the spec: [UTIL.apply(target, source)] of
    [geoscript/util], which is not among the sources.  It assigns every
    enumerable entry of [source] to [target] and returns [target]; the
    source is only read. *)
Definition apply (target : list (string * value)) (source : value)
  : list (string * value) :=
  fold_left (fun t kv => set_prop kv.1 kv.2 t) (for_in source) target.

(** [prepConfig] *)
Definition prepConfig (config : value) : value :=
  if instanceof_Array config then VObject [("fields", config)]
  else VObject (apply [] config).

(** *** The feature-type builder of the engine *)

(** Every call [Schema] makes on the engine is recorded in order. *)
Inductive call :=
| new_SimpleFeatureTypeBuilder
| setName (name : string)
| setCRS (crs : Handle)
| add (descriptor : Handle)
| buildFeatureType.

Record SimpleFeatureTypeBuilder := {
  b_name : string;
  b_crs : option Handle;
  b_attributes : list Handle
}.

(** The built type answers [getName().getLocalPart()] with the name set
    and [getAttributeDescriptors()] with the descriptors in the order
    added. *)
Record SimpleFeatureType := {
  getName : string;
  getCoordinateReferenceSystem : option Handle;
  getAttributeDescriptors : list Handle
}.

Definition trace := list call.
Definition record (c : call) : M trace unit := modify (fun t => t ++ [c]).

Definition builder_new : M trace SimpleFeatureTypeBuilder :=
  do! record new_SimpleFeatureTypeBuilder in
  ret {| b_name := ""; b_crs := None; b_attributes := [] |}.

Definition builder_setName (b : SimpleFeatureTypeBuilder) (name : string)
  : M trace SimpleFeatureTypeBuilder :=
  do! record (setName name) in
  ret {| b_name := name; b_crs := b_crs b; b_attributes := b_attributes b |}.

Definition builder_setCRS (b : SimpleFeatureTypeBuilder) (crs : Handle)
  : M trace SimpleFeatureTypeBuilder :=
  do! record (setCRS crs) in
  ret {| b_name := b_name b; b_crs := Some crs; b_attributes := b_attributes b |}.

Definition builder_add (b : SimpleFeatureTypeBuilder) (descriptor : Handle)
  : M trace SimpleFeatureTypeBuilder :=
  do! record (add descriptor) in
  ret {| b_name := b_name b; b_crs := b_crs b;
         b_attributes := b_attributes b ++ [descriptor] |}.

Definition builder_buildFeatureType (b : SimpleFeatureTypeBuilder)
  : M trace SimpleFeatureType :=
  do! record buildFeatureType in
  ret {| getName := b_name b; getCoordinateReferenceSystem := b_crs b;
         getAttributeDescriptors := b_attributes b |}.

(** [new NameImpl(v)] takes a Java string: the host converts. *)
Definition NameImpl (v : value) : string := property_key v.

(** *** Schema *)

(** A schema owns the engine's feature type; the shell made by
    [new Schema()] has none yet. *)
Record Schema := { _schema : option SimpleFeatureType }.

(** [if (!(field instanceof Field)) field = new Field(field)], as the
    descriptor the field owns *)
Definition as_Field (field : value) : result Handle :=
  match field with
  | VInstance Field _field => OK _field
  | _ => Field_constructor field
  end.

(** the descriptors of an array of fields, each taken by [as_Field] *)
Fixpoint as_Fields (fields : list value) : result (list Handle) :=
  match fields with
  | [] => OK []
  | field :: rest =>
      match as_Field field, as_Fields rest with
      | OK h, OK hs => OK (h :: hs)
      | Throw e, _ | _, Throw e => Throw e
      end
  end.

(** the callback of [config.fields.forEach] in the constructor *)
Definition add_field (builder : SimpleFeatureTypeBuilder) (field : value)
  : M trace SimpleFeatureTypeBuilder :=
  let! _field := lift (as_Field field) in
  let! builder :=
    (if GEOM (Field_type _field) then
       match Field_projection _field with
       | Some _projection => builder_setCRS builder _projection
       | None => ret builder
       end
     else ret builder) in
  builder_add builder _field.

Fixpoint add_fields (builder : SimpleFeatureTypeBuilder) (fields : list value)
  : M trace SimpleFeatureTypeBuilder :=
  match fields with
  | [] => ret builder
  | field :: rest =>
      let! builder := add_field builder field in add_fields builder rest
  end.

(** [new Schema(config)] *)
Definition Schema_constructor (config : value) : M trace Schema :=
  if truthy config then
    let config := prepConfig config in
    if negb (truthy (member config "fields"))
       || negb (has_forEach (member config "fields"))
    then throw (Error "Construct schema with a fields array.")
    else
      let! builder := builder_new in
      let! builder :=
        builder_setName builder
          (NameImpl (js_or (member config "name") (VStr "feature"))) in
      let! builder :=
        match member config "fields" with
        | VArray fields => add_fields builder fields
        | _ => throw TypeError
        end in
      let! ft := builder_buildFeatureType builder in
      ret {| _schema := Some ft |}
  else ret {| _schema := None |}.

(** [Schema.from_] *)
Definition Schema_from_ (ft : SimpleFeatureType) : Schema :=
  {| _schema := Some ft |}.

(** [this._schema.m()]: a [TypeError] on the shell *)
Definition the_schema (this : Schema) : result SimpleFeatureType :=
  match _schema this with Some ft => OK ft | None => Throw TypeError end.

Definition result_map {A B} (f : A -> B) (r : result A) : result B :=
  match r with OK a => OK (f a) | Throw e => Throw e end.

(** [get name] *)
Definition Schema_name (this : Schema) : result string :=
  result_map getName (the_schema this).

(** [get fields]: the array of [Field.from_(_field)], one wrapper per
    descriptor; each is given by the descriptor it owns. *)
Definition Schema_fields (this : Schema) : result (list Handle) :=
  result_map getAttributeDescriptors (the_schema this).

(** [get fieldNames] *)
Definition Schema_fieldNames (this : Schema) : result (list string) :=
  result_map (fun ft => map Field_name (getAttributeDescriptors ft))
             (the_schema this).

(** the loop of [get] over [fields] *)
Fixpoint get_loop (fields : list Handle) (name : value) : value :=
  match fields with
  | [] => VUndefined
  | _field :: rest =>
      if strict_equal_string (Field_name _field) name
      then VInstance Field _field
      else get_loop rest name
  end.

(** [get(name)] *)
Definition Schema_get (this : Schema) (name : value) : result value :=
  result_map (fun fields => get_loop fields name) (Schema_fields this).

(** [get config] *)
Definition Schema_config (this : Schema) : result value :=
  match Schema_name this, Schema_fields this with
  | OK name, OK fields =>
      OK (VObject [("type", VStr "Schema"); ("name", VStr name);
                   ("fields", VArray (map Field_config fields))])
  | Throw e, _ | _, Throw e => Throw e
  end.

(** the inner loop of [clone]: the first element of [configFields] named
    [name]; reading the name of an [undefined] or [null] element throws *)
Fixpoint find_configField (name : string) (configFields : list value)
  : result (option value) :=
  match configFields with
  | [] => OK None
  | configField :: rest =>
      match member_of configField "name" with
      | Throw e => Throw e
      | OK n => if strict_equal_string name n then OK (Some configField)
                else find_configField name rest
      end
  end.

(** first pass of [clone]: replace any existing fields with provided
    fields, marking each existing name in [existing] *)
Fixpoint replace_existing (this_fields : list Handle) (configFields : list value)
    (fields : list value) (existing : list (string * value))
  : result (list value * list (string * value)) :=
  match this_fields with
  | [] => OK (fields, existing)
  | field :: rest =>
      let existing := set_prop (Field_name field) (VBool true) existing in
      match find_configField (Field_name field) configFields with
      | Throw e => Throw e
      | OK (Some configField) =>
          replace_existing rest configFields (fields ++ [configField]) existing
      | OK None =>
          replace_existing rest configFields
                           (fields ++ [VInstance Field field]) existing
      end
  end.

(** second pass of [clone]: add any new fields *)
Fixpoint add_new (configFields : list value) (existing : list (string * value))
    (fields : list value) : result (list value) :=
  match configFields with
  | [] => OK fields
  | field :: rest =>
      match member_of field "name" with
      | Throw e => Throw e
      | OK n =>
          if negb (js_in (property_key n) existing)
          then add_new rest existing (fields ++ [field])
          else add_new rest existing fields
      end
  end.

(** [clone(config)].  A [configFields] value that is not an array has no
    callable [forEach]: the second pass throws a [TypeError], and nothing
    before it calls the engine or throws anything else. *)
Definition Schema_clone (this : Schema) (config : value) : M trace Schema :=
  let configFields := js_or (js_and config (member config "fields")) (VArray []) in
  let! this_fields := lift (Schema_fields this) in
  match configFields with
  | VArray configFields =>
      let! pass1 := lift (replace_existing this_fields configFields [] []) in
      let! fields := lift (add_new configFields pass1.2 pass1.1) in
      let! name :=
        (let n := js_and config (member config "name") in
         if truthy n then ret n
         else let! s := lift (Schema_name this) in ret (VStr s)) in
      Schema_constructor (VObject [("name", name); ("fields", VArray fields)])
  | _ => throw TypeError
  end.

(** What the two passes of [clone] compute, in closed form: [o] is
    named [n]; the names marked in [existing]; the merged array. *)
Definition named (n : string) (o : value) : bool :=
  strict_equal_string n (member o "name").

Definition marks (this_fields : list Handle) : list (string * value) :=
  fold_left (fun existing field =>
               set_prop (Field_name field) (VBool true) existing)
            this_fields [].

Definition clone_fields (this_fields : list Handle) (configFields : list value)
  : list value :=
  map (fun field => default (VInstance Field field)
                            (List.find (named (Field_name field)) configFields))
      this_fields
  ++ List.filter (fun o => negb (js_in (property_key (member o "name"))
                                       (marks this_fields)))
                 configFields.


Definition defined (v : value) : bool :=
  match v with VUndefined | VNull => false | _ => true end.

(** The round-trip law of the nested wrapper: a field made from the
    [config] of a field has that same [config]. *)
Definition Field_roundtrip : Prop :=
  forall h, exists h',
    as_Field (Field_config h) = OK h' /\ Field_config h' = Field_config h.

(** A schema configuration is well typed when its name, if it has one, is
    a string. *)
Definition name_is_string (config : value) : Prop :=
  truthy (member (prepConfig config) "name") = false
  \/ exists s, member (prepConfig config) "name" = VStr s.

(** the predicate of the factory registered for [Schema] *)
Definition Schema_handles (config : value) : bool :=
  let config := prepConfig config in
  instanceof_Array (member config "fields").
End Feature.

(** ** The Shape symbolizer *)

(** [filter] (expressions), [style/fill] and [style/stroke], and the
    engine's style builder, as far as [Shape] uses them.  An [Expression],
    [Fill] or [Stroke] instance owns one engine handle. *)
Class StyleCollaborators (Handle : Type) := {
  (** [Expression.literal(v)._expression] *)
  Expression_literal : value Handle -> Handle;
  (** [new Expression(config)._expression]; the constructor may throw. *)
  Expression_constructor : value Handle -> result Handle;
  (** [Expression.from_(_expression).config] *)
  Expression_config : Handle -> value Handle;
  (** [new Fill(config)._fill] and [Fill.from_(_fill).config] *)
  Fill_constructor : value Handle -> result Handle;
  Fill_config : Handle -> value Handle;
  (** [new Stroke(config)._stroke] and [Stroke.from_(_stroke).config] *)
  Stroke_constructor : value Handle -> result Handle;
  Stroke_config : Handle -> value Handle;
  (** the well-known name, size, opacity, rotation, fill and stroke of the
      symbolizer that [STYLE_UTIL._builder.createPointSymbolizer()] makes *)
  default_wellKnownName : Handle;
  default_size : Handle;
  default_opacity : Handle;
  default_rotation : Handle;
  default_fill : Handle;
  default_stroke : Handle;
}.

Section Style.
Context {Handle : Type} `{StyleCollaborators Handle}.
Local Abbreviation value := (value Handle).

(** A point symbolizer of the engine: what [SLD.mark] and [SLD.graphic]
    of it hold. *)
Record PointSymbolizer := {
  wellKnownName : Handle;
  size : Handle;
  opacity : Handle;
  rotation : Handle;
  fill : Handle;
  stroke : Handle
}.

(** The wrapper: its private cache, from derived-handle name to a
    reference into the engine's symbolizers. *)
Record Shape := { cache : gmap string nat }.

(** The instance [this] and the engine's symbolizer objects, by
    reference: they are mutable and shared with whoever holds the
    reference. *)
Record state := {
  this : Shape;
  symbolizers : gmap nat PointSymbolizer
}.

(** what [STYLE_UTIL._builder.createPointSymbolizer()] makes *)
Definition default_symbolizer : PointSymbolizer :=
  {| wellKnownName := default_wellKnownName;
     size := default_size;
     opacity := default_opacity;
     rotation := default_rotation;
     fill := default_fill;
     stroke := default_stroke |}.

(** [STYLE_UTIL._builder.createPointSymbolizer()]: a new object *)
Definition createPointSymbolizer : M state nat :=
  fun s =>
    let r := fresh (dom (symbolizers s)) in
    (OK r,
     {| this := this s;
        symbolizers := <[r := default_symbolizer]> (symbolizers s) |}).

(** [set _symbolizer] *)
Definition set__symbolizer (_symbolizer : nat) : M state unit :=
  modify (fun s =>
    {| this := {| cache := <["_symbolizer" := _symbolizer]> (cache (this s)) |};
       symbolizers := symbolizers s |}).

(** [get _symbolizer]; [None] is [undefined] *)
Definition get__symbolizer : M state (option nat) :=
  do! (fun s =>
         if negb (bool_decide (is_Some (cache (this s) !! "_symbolizer")))
         then (let! r := createPointSymbolizer in set__symbolizer r) s
         else ret tt s) in
  fun s => (OK (cache (this s) !! "_symbolizer"), s).

(** [this._mark.getX()], [this._graphic.getX()]: a read of the mark or
    the graphic of [this._symbolizer] *)
Definition getter (get : PointSymbolizer -> Handle) : M state Handle :=
  let! _symbolizer := get__symbolizer in
  fun s =>
    match _symbolizer with
    | Some r =>
        match symbolizers s !! r with
        | Some p => (OK (get p), s)
        | None => (Throw TypeError, s)
        end
    | None => (Throw TypeError, s)
    end.

(** [this._mark.setX(h)], [this._graphic.setX(h)]: the object the
    reference leads to is changed in place *)
Definition setter (set : PointSymbolizer -> PointSymbolizer) : M state unit :=
  let! _symbolizer := get__symbolizer in
  fun s =>
    match _symbolizer with
    | Some r =>
        match symbolizers s !! r with
        | Some p =>
            (OK tt,
             {| this := this s;
                symbolizers := <[r := set p]> (symbolizers s) |})
        | None => (Throw TypeError, s)
        end
    | None => (Throw TypeError, s)
    end.

Definition setWellKnownName (h : Handle) (p : PointSymbolizer) :=
  {| wellKnownName := h; size := size p; opacity := opacity p;
     rotation := rotation p; fill := fill p; stroke := stroke p |}.
Definition setSize (h : Handle) (p : PointSymbolizer) :=
  {| wellKnownName := wellKnownName p; size := h; opacity := opacity p;
     rotation := rotation p; fill := fill p; stroke := stroke p |}.
Definition setOpacity (h : Handle) (p : PointSymbolizer) :=
  {| wellKnownName := wellKnownName p; size := size p; opacity := h;
     rotation := rotation p; fill := fill p; stroke := stroke p |}.
Definition setRotation (h : Handle) (p : PointSymbolizer) :=
  {| wellKnownName := wellKnownName p; size := size p; opacity := opacity p;
     rotation := h; fill := fill p; stroke := stroke p |}.
Definition setFill (h : Handle) (p : PointSymbolizer) :=
  {| wellKnownName := wellKnownName p; size := size p; opacity := opacity p;
     rotation := rotation p; fill := h; stroke := stroke p |}.
Definition setStroke (h : Handle) (p : PointSymbolizer) :=
  {| wellKnownName := wellKnownName p; size := size p; opacity := opacity p;
     rotation := rotation p; fill := fill p; stroke := h |}.

(** [v instanceof c], with the handle the instance owns ([v._expression]
    of an [Expression], and so on) *)
Definition handle_of (c : wrapper) (v : value) : option Handle :=
  match v with
  | VInstance c' h => if wrapper_eqb c' c then Some h else None
  | _ => None
  end.

(** [set name] *)
Definition Shape_set_name (expression : value) : M state unit :=
  let! expression := lift
    (if String.eqb (typeof expression) "string"
     then OK (Expression_literal expression)
     else match handle_of Expression expression with
          | Some e => OK e
          | None => Expression_constructor expression
          end) in
  setter (setWellKnownName expression).

(** [get name], as the handle of the [Expression] it returns *)
Definition Shape_get_name : M state Handle := getter wellKnownName.

(** [set size] *)
Definition Shape_set_size (expression : value) : M state unit :=
  let! expression := lift
    (match handle_of Expression expression with
     | Some e => OK e
     | None => Expression_constructor expression
     end) in
  setter (setSize expression).

Definition Shape_get_size : M state Handle := getter size.

(** [try { new Expression(v) } catch (err) { throw new Error(message) }] *)
Definition Expression_or (message : string) (v : value) : result Handle :=
  match Expression_constructor v with
  | OK e => OK e
  | Throw _ => Throw (Error message)
  end.

(** [set opacity] *)
Definition Shape_set_opacity (expression : value) : M state unit :=
  let! expression := lift
    (match expression with
     | VNum x =>
         if PrimFloat.ltb x 0 || PrimFloat.ltb 1 x
         then Throw (Error "Opacity must be a number between 0 and 1 (inclusive)")
         else OK (Expression_literal expression)
     | _ =>
         if negb (String.eqb (typeof expression) "object")
         then Throw (Error ("Shape opacity cannot be type: " +:+ typeof expression))
         else match handle_of Expression expression with
              | Some e => OK e
              | None => Expression_or
                          "Shape opacity must be a number or an expression"
                          expression
              end
     end) in
  setter (setOpacity expression).

Definition Shape_get_opacity : M state Handle := getter opacity.

(** [set rotation] *)
Definition Shape_set_rotation (expression : value) : M state unit :=
  let! expression := lift
    (match expression with
     | VNum x => OK (Expression_literal expression)
     | _ =>
         if negb (String.eqb (typeof expression) "object")
         then Throw (Error ("Shape rotation cannot be type: " +:+ typeof expression))
         else match handle_of Expression expression with
              | Some e => OK e
              | None => Expression_or
                          "Shape rotation must be a number or an expression"
                          expression
              end
     end) in
  setter (setRotation expression).

Definition Shape_get_rotation : M state Handle := getter rotation.

(** [set fill] *)
Definition Shape_set_fill (fill' : value) : M state unit :=
  let! fill' := lift
    (match handle_of Fill fill' with
     | Some f => OK f
     | None => Fill_constructor fill'
     end) in
  setter (setFill fill').

Definition Shape_get_fill : M state Handle := getter fill.

(** [set stroke] *)
Definition Shape_set_stroke (stroke' : value) : M state unit :=
  let! stroke' := lift
    (match handle_of Stroke stroke' with
     | Some f => OK f
     | None => Stroke_constructor stroke'
     end) in
  setter (setStroke stroke').

Definition Shape_get_stroke : M state Handle := getter stroke.

(** [get config] *)
Definition Shape_config : M state value :=
  let! name := Shape_get_name in
  let! size := Shape_get_size in
  let! opacity := Shape_get_opacity in
  let! rotation := Shape_get_rotation in
  let! fill := Shape_get_fill in
  let! stroke := Shape_get_stroke in
  ret (VObject [("type", VStr "Shape");
                ("name", Expression_config name);
                ("size", Expression_config size);
                ("opacity", Expression_config opacity);
                ("rotation", Expression_config rotation);
                ("fill", Fill_config fill);
                ("stroke", Stroke_config stroke)]).

(** [this[k] = v] on a shape: the setter of a settable property runs;
    any other key is an ordinary property, which nothing here reads. *)
Definition Shape_assign (kv : string * value) : M state unit :=
  let k := kv.1 in
  let v := kv.2 in
  if String.eqb k "name" then Shape_set_name v
  else if String.eqb k "size" then Shape_set_size v
  else if String.eqb k "opacity" then Shape_set_opacity v
  else if String.eqb k "rotation" then Shape_set_rotation v
  else if String.eqb k "fill" then Shape_set_fill v
  else if String.eqb k "stroke" then Shape_set_stroke v
  else ret tt.

Fixpoint assign_all (entries : list (string * value)) : M state unit :=
  match entries with
  | [] => ret tt
  | kv :: rest => do! Shape_assign kv in assign_all rest
  end.

(** Modelled from the spec: the constructor of the base class
    [Symbolizer] ([style/symbolizer] is not among the sources).  The
    instance gets its own empty cache, and a configuration that is present
    has each of its entries assigned to the instance, which writes every
    settable property through its setter. *)
Definition Symbolizer_constructor (config : value) : M state unit :=
  do! modify (fun s => {| this := {| cache := ∅ |};
                          symbolizers := symbolizers s |}) in
  if truthy config then assign_all (for_in config) else ret tt.

(** what the [Shape] constructor hands to the base constructor *)
Definition Shape_constructor_config (config : value) : value :=
  if truthy config then
    if String.eqb (typeof config) "string"
    then VObject [("name", config)]
    else config
  else config.

(** [new Shape(config)]: [this] becomes the new instance *)
Definition Shape_constructor (config : value) : M state unit :=
  Symbolizer_constructor (Shape_constructor_config config).

(** [clone()]: [new Shape(this.config)] is another instance, with a
    cache of its own, on the same engine; [this] stays the receiver. *)
Definition Shape_clone : M state Shape :=
  let! config := Shape_config in
  fun s =>
    match Shape_constructor config s with
    | (OK _, s') =>
        (OK (this s'), {| this := this s; symbolizers := symbolizers s' |})
    | (Throw e, s') =>
        (Throw e, {| this := this s; symbolizers := symbolizers s' |})
    end.

(** [toFullString()] reads the name and the size. *)
Definition Shape_toFullString : M state (Handle * Handle) :=
  let! name := Shape_get_name in
  let! size := Shape_get_size in
  ret (name, size).

(** What a caller can do with a shape during its lifetime: read the
    derived handle, read and assign the properties, read [config], call
    [clone] and [toFullString]. *)
Inductive operation :=
| read__symbolizer
| set_name (v : value) | get_name
| set_size (v : value) | get_size
| set_opacity (v : value) | get_opacity
| set_rotation (v : value) | get_rotation
| set_fill (v : value) | get_fill
| set_stroke (v : value) | get_stroke
| get_config
| call_clone
| call_toFullString.

(** the state an operation leaves, whether it returns or throws *)
Definition perform (op : operation) (s : state) : state :=
  match op with
  | read__symbolizer => (get__symbolizer s).2
  | set_name v => (Shape_set_name v s).2
  | get_name => (Shape_get_name s).2
  | set_size v => (Shape_set_size v s).2
  | get_size => (Shape_get_size s).2
  | set_opacity v => (Shape_set_opacity v s).2
  | get_opacity => (Shape_get_opacity s).2
  | set_rotation v => (Shape_set_rotation v s).2
  | get_rotation => (Shape_get_rotation s).2
  | set_fill v => (Shape_set_fill v s).2
  | get_fill => (Shape_get_fill s).2
  | set_stroke v => (Shape_set_stroke v s).2
  | get_stroke => (Shape_get_stroke s).2
  | get_config => (Shape_config s).2
  | call_clone => (Shape_clone s).2
  | call_toFullString => (Shape_toFullString s).2
  end.

Definition perform_all (ops : list operation) (s : state) : state :=
  fold_left (fun s' op => perform op s') ops s.

(** The symbolizer [this._symbolizer] stands for: the one the cached
    reference leads to, or the one the first read is going to make. *)
Definition view (s : state) : option PointSymbolizer :=
  match cache (this s) !! "_symbolizer" with
  | Some r => symbolizers s !! r
  | None => Some default_symbolizer
  end.

(** A cached reference leads to a symbolizer of the engine. *)
Definition well_formed (s : state) : Prop := is_Some (view s).

(** the configuration [config] reads off a symbolizer *)
Definition symbolizer_config (p : PointSymbolizer) : value :=
  VObject [("type", VStr "Shape");
           ("name", Expression_config (wellKnownName p));
           ("size", Expression_config (size p));
           ("opacity", Expression_config (opacity p));
           ("rotation", Expression_config (rotation p));
           ("fill", Fill_config (fill p));
           ("stroke", Stroke_config (stroke p))].

(** The round-trip law of a nested wrapper: its [config] is a plain
    mapping, and the wrapper made from it has that same [config]. *)
Definition roundtrip (constructor : value -> result Handle)
    (config : Handle -> value) : Prop :=
  forall h,
    (exists ps, config h = VObject ps) /\
    exists h', constructor (config h) = OK h' /\ config h' = config h.
End Style.

(** ** The factory registry *)

(** The registry and the dispatcher ([register] and [create] of
    [feature/util], [Factory] of [geoscript/factory]) are not among the
    sources verified here; [schema.js] only registers its factory.  They
    are modelled from the specification of the registry. *)
Section Registry.
Context {Handle WrapperType Wrapper : Type}.
Local Abbreviation value := (value Handle).

(** the normaliser of the configuration and [new type(config)] *)
Variable normalize : value -> value.
Variable construct : WrapperType -> value -> result Wrapper.

(** Modelled from the spec: a factory entry of [geoscript/factory], which
    pairs a concrete wrapper type with a predicate [handles]. *)
Record Factory := {
  type : WrapperType;
  handles : value -> bool
}.

(** Modelled from the spec: [register(entry)] of [feature/util]; it appends
    the entry to the ordered list, without duplicate detection. *)
Definition register (entry : Factory) : M (list Factory) unit :=
  modify (fun registry => registry ++ [entry]).

Fixpoint register_all (entries : list Factory) : M (list Factory) unit :=
  match entries with
  | [] => ret tt
  | entry :: rest => do! register entry in register_all rest
  end.

(** Modelled from the spec: the scan of [create] over the registered
    entries, in registration order, for the first entry whose [handles]
    returns true. *)
Fixpoint scan (config : value) (entries : list Factory) : option Factory :=
  match entries with
  | [] => None
  | entry :: rest =>
      if handles entry config then Some entry else scan config rest
  end.

(** Modelled from the spec: [create(config)] of [feature/util]; it
    canonicalizes the configuration, constructs [new entry.type(config)]
    for the first matching entry, and fails with [NoMatchingFactory] when
    no entry matches.  The registry is only read. *)
Definition create (config : value) : M (list Factory) Wrapper :=
  fun registry =>
    let config := normalize config in
    match scan config registry with
    | Some entry => (construct (type entry) config, registry)
    | None => (Throw NoMatchingFactory, registry)
    end.

(** a run of [create] calls, results dropped *)
Fixpoint create_all (configs : list value) : M (list Factory) unit :=
  match configs with
  | [] => ret tt
  | config :: rest =>
      fun registry => create_all rest (create config registry).2
  end.
End Registry.

(** ** Normalisation over the store *)

(** [prepConfig] again, on a store of objects addressed by reference, where
    the caller's object and the object returned can be told apart. *)
Module Store.
Inductive value :=
| Undefined | Null | Bool (b : bool) | Num (x : float) | Str (s : string)
| Ref (r : nat).

Inductive object :=
| Object (props : gmap string value)
| Array (elements : list value).

Abbreviation heap := (gmap nat object).

(** an object literal or [new]: a reference no object has yet *)
Definition alloc (o : object) : M heap value :=
  fun h => let r := fresh (dom h) in (OK (Ref r), <[r := o]> h).

Definition instanceof_Array (h : heap) (v : value) : bool :=
  match v with
  | Ref r => match h !! r with Some (Array _) => true | _ => false end
  | _ => false
  end.

(** the entries a [for (k in v)] loop visits *)
Definition for_in (h : heap) (v : value) : list (string * value) :=
  match v with
  | Ref r =>
      match h !! r with
      | Some (Object ps) => map_to_list ps
      | Some (Array xs) => imap (fun i x => (pretty i, x)) xs
      | None => []
      end
  | Str s =>
      imap (fun i a => (pretty i, Str (String a EmptyString)))
           (String.list_ascii_of_string s)
  | _ => []
  end.

(** [o[k] = v] on the object at [r] *)
Definition assign (r : nat) (k : string) (v : value) (h : heap) : heap :=
  match h !! r with
  | Some (Object ps) => <[r := Object (<[k := v]> ps)]> h
  | _ => h
  end.

(** Modelled from the spec: [UTIL.apply(target, source)], as in the
    section on features: every enumerable entry of [source] is assigned
    to the object [target] refers to, and [target] is returned. *)
Definition apply (target source : value) : M heap value :=
  fun h =>
    match target with
    | Ref t =>
        (OK target,
         fold_left (fun h' kv => assign t kv.1 kv.2 h') (for_in h source) h)
    | _ => (OK target, h)
    end.

(** [prepConfig] *)
Definition prepConfig (config : value) : M heap value :=
  fun h =>
    if instanceof_Array h config
    then alloc (Object {["fields" := config]}) h
    else (let! target := alloc (Object ∅) in apply target config) h.

(** later defaulting or merging on the result: a run of assignments *)
Definition assign_all (r : nat) (writes : list (string * value)) (h : heap)
  : heap :=
  fold_left (fun h' kv => assign r kv.1 kv.2 h') writes h.
End Store.

(** ** The rest of the schema module *)

Section FeatureRest.
Context {Handle : Type} `{FeatureCollaborators Handle}.
Local Abbreviation value := (value Handle).

(** [Field.fromValue(name, value)._field] of [feature/field], which may
    throw *)
Variable Field_fromValue : string -> value -> result Handle.

(** the loop of [fromValues]: one field per enumerable entry, pushed in the
    order of the enumeration *)
Fixpoint fromValue_all (entries : list (string * value)) (fields : list value)
  : result (list value) :=
  match entries with
  | [] => OK fields
  | (name, v) :: rest =>
      match Field_fromValue name v with
      | OK _field => fromValue_all rest (fields ++ [VInstance Field _field])
      | Throw e => Throw e
      end
  end.

(** [Schema.fromValues(values)] *)
Definition Schema_fromValues (values : value) : M trace Schema :=
  let! fields := lift (fromValue_all (for_in values) []) in
  Schema_constructor (VObject [("fields", VArray fields)]).

(** the double quote, and [toFullString()]: the names are joined by
    [", "] between an opening [["] and a closing ["]] *)
Definition quote : string := String (Ascii.ascii_of_nat 34) EmptyString.

Definition Schema_toFullString (this : Schema) : result string :=
  match Schema_fieldNames this with
  | OK fieldNames =>
      let names := "[" +:+ quote
                   +:+ String.concat (quote +:+ ", " +:+ quote) fieldNames
                   +:+ quote +:+ "]" in
      match Schema_name this with
      | OK name =>
          OK ("name: " +:+ quote +:+ name +:+ quote +:+ ", fields: " +:+ names)
      | Throw e => Throw e
      end
  | Throw e => Throw e
  end.

(** the calls the constructor's callback makes on the builder for the
    field that owns descriptor [h] *)
Definition calls_of (h : Handle) : list call :=
  (if GEOM (Field_type h) then
     match Field_projection h with
     | Some _projection => [setCRS _projection]
     | None => []
     end
   else []) ++ [add h].
End FeatureRest.

(** ** A reference implementation of the collaborators *)

(** A small stand-in for the engine and for the modules above, on which the
    definitions run.  A field definition has a name and a type, and a
    geometry field may have a projection. *)
Module Reference.
Inductive handle :=
| descriptor (name type : string) (projection : option string)
| crs (id : string)
| literal (v : float)
| cql (text : string)
| paint (colour : string).

Definition string_member (k : string) (v : value handle) : option string :=
  match v with
  | VObject ps =>
      match own k ps with
      | Some (VStr s) => Some s
      | _ => None
      end
  | _ => None
  end.

Definition new_Field (config : value handle) : result handle :=
  match string_member "name" config, string_member "type" config with
  | Some name, Some type =>
      OK (descriptor name type (string_member "projection" config))
  | None, _ => Throw (Error "Field config must include name property.")
  | _, None => Throw (Error "Field config must include type property.")
  end.

Definition name_of (h : handle) : string :=
  match h with descriptor name _ _ => name | _ => "" end.

Definition type_of (h : handle) : string :=
  match h with descriptor _ type _ => type | _ => "" end.

Definition projection_of (h : handle) : option handle :=
  match h with descriptor _ _ (Some id) => Some (crs id) | _ => None end.

Definition field_config (h : handle) : value handle :=
  match h with
  | descriptor name type (Some id) =>
      VObject [("name", VStr name); ("type", VStr type);
               ("projection", VStr id)]
  | _ => VObject [("name", VStr (name_of h)); ("type", VStr (type_of h))]
  end.

Definition is_geometry (type : string) : bool :=
  bool_decide (type ∈ ["Point"; "LineString"; "Polygon"; "MultiPoint";
                       "MultiLineString"; "MultiPolygon"; "Geometry"]).

(** numbers and objects print as a fixed tag here *)
Definition to_string (v : value handle) : string :=
  match v with
  | VUndefined => "undefined"
  | VNull => "null"
  | VBool true => "true"
  | VBool false => "false"
  | VNum _ => "[number]"
  | VStr s => s
  | VArray _ | VObject _ | VInstance _ _ => "[object]"
  end.

#[global] Instance features : FeatureCollaborators handle := {|
  Field_constructor := new_Field;
  Field_name := name_of;
  Field_type := type_of;
  Field_projection := projection_of;
  Field_config := field_config;
  GEOM := is_geometry;
  ToString := to_string
|}.

(** expressions: a number or a piece of text *)
Definition literal_of (v : value handle) : handle :=
  match v with
  | VNum x => literal x
  | VStr s => cql ("'" +:+ s +:+ "'")
  | _ => cql ""
  end.

Definition expression_config (h : handle) : value handle :=
  match h with
  | literal x => VObject [("type", VStr "Expression"); ("value", VNum x)]
  | cql text => VObject [("type", VStr "Expression"); ("text", VStr text)]
  | _ => VObject [("type", VStr "Expression"); ("text", VStr "")]
  end.

Definition new_Expression (config : value handle) : result handle :=
  match config with
  | VNum x => OK (literal x)
  | VStr s => OK (cql s)
  | VObject ps =>
      match own "value" ps, own "text" ps with
      | Some (VNum x), _ => OK (literal x)
      | _, Some (VStr s) => OK (cql s)
      | _, _ => Throw (Error "Expression config must include text.")
      end
  | _ => Throw (Error "Expression config must include text.")
  end.

(** fills and strokes: a colour *)
Definition paint_config (type : string) (h : handle) : value handle :=
  match h with
  | paint colour => VObject [("type", VStr type); ("brush", VStr colour)]
  | _ => VObject [("type", VStr type); ("brush", VStr "")]
  end.

Definition paint_constructor (config : value handle) : result handle :=
  match config with
  | VStr colour => OK (paint colour)
  | VObject ps =>
      match own "brush" ps with
      | Some (VStr colour) => OK (paint colour)
      | _ => Throw (Error "A brush is required.")
      end
  | _ => Throw (Error "A brush is required.")
  end.

#[global] Instance style : StyleCollaborators handle := {|
  Expression_literal := literal_of;
  Expression_constructor := new_Expression;
  Expression_config := expression_config;
  Fill_constructor := paint_constructor;
  Fill_config := paint_config "Fill";
  Stroke_constructor := paint_constructor;
  Stroke_config := paint_config "Stroke";
  default_wellKnownName := cql "'square'";
  default_size := literal 6;
  default_opacity := literal 1;
  default_rotation := literal 0;
  default_fill := paint "#808080";
  default_stroke := paint "#000000"
|}.

(** the schema of the module's sample code, and a few configurations *)
Definition the_geom : value handle :=
  VObject [("name", VStr "the_geom"); ("type", VStr "Point");
           ("projection", VStr "EPSG:4326")].
Definition name_field : value handle :=
  VObject [("name", VStr "name"); ("type", VStr "String")].
Definition cities : value handle :=
  VObject [("name", VStr "cities"); ("fields", VArray [the_geom; name_field])].

Definition empty_state : state (Handle := handle) :=
  {| this := {| cache := ∅ |}; symbolizers := ∅ |}.

(** fields named a, b, c and d, an override of b, and a field named like a
    member that every plain object inherits *)
Definition field_a : value handle :=
  VObject [("name", VStr "a"); ("type", VStr "String")].
Definition field_b : value handle :=
  VObject [("name", VStr "b"); ("type", VStr "String")].
Definition field_c : value handle :=
  VObject [("name", VStr "c"); ("type", VStr "String")].
Definition field_b' : value handle :=
  VObject [("name", VStr "b"); ("type", VStr "Integer")].
Definition field_d : value handle :=
  VObject [("name", VStr "d"); ("type", VStr "Double")].
Definition field_constructor : value handle :=
  VObject [("name", VStr "constructor"); ("type", VStr "String")].

Definition abc : Schema (Handle := handle) :=
  {| _schema := Some {| getName := "feature";
                        getCoordinateReferenceSystem := None;
                        getAttributeDescriptors :=
                          [descriptor "a" "String" None;
                           descriptor "b" "String" None;
                           descriptor "c" "String" None] |} |}.

(** a store with one mapping, at reference 0 *)
Definition one_object : gmap nat Store.object :=
  {[ 0 := Store.Object {[ "name" := Store.Str "cities" ]} ]}.

(** the schema [new Schema([the_geom, name_field])] builds, the calls it
    makes, and its [config] *)
Definition feature_schema : Schema (Handle := handle) :=
  {| _schema := Some {| getName := "feature";
                        getCoordinateReferenceSystem := Some (crs "EPSG:4326");
                        getAttributeDescriptors :=
                          [descriptor "the_geom" "Point" (Some "EPSG:4326");
                           descriptor "name" "String" None] |} |}.

Definition feature_trace : trace (Handle := handle) :=
  [new_SimpleFeatureTypeBuilder; setName "feature"; setCRS (crs "EPSG:4326");
   add (descriptor "the_geom" "Point" (Some "EPSG:4326"));
   add (descriptor "name" "String" None); buildFeatureType].

Definition feature_config : value handle :=
  VObject [("type", VStr "Schema"); ("name", VStr "feature");
           ("fields", VArray [the_geom; name_field])].

(** the shape [new Shape("star")] on an engine without symbolizers, after
    its [config] has been read, and that [config] *)
Definition star : state (Handle := handle) :=
  (Shape_constructor (VStr "star") empty_state).2.

Definition star_config : value handle :=
  VObject [("type", VStr "Shape");
           ("name", VObject [("type", VStr "Expression"); ("text", VStr "'star'")]);
           ("size", VObject [("type", VStr "Expression"); ("value", VNum 6)]);
           ("opacity", VObject [("type", VStr "Expression"); ("value", VNum 1)]);
           ("rotation", VObject [("type", VStr "Expression"); ("value", VNum 0)]);
           ("fill", VObject [("type", VStr "Fill"); ("brush", VStr "#808080")]);
           ("stroke", VObject [("type", VStr "Stroke"); ("brush", VStr "#000000")])].

(** three factory entries: one that handles nothing, the schema's, and one
    that handles everything; the types are given by name *)
Definition nothing : Factory (Handle := handle) (WrapperType := string) :=
  {| type := "Nothing"; handles := fun _ => false |}.
Definition schemas : Factory (Handle := handle) (WrapperType := string) :=
  {| type := "Schema"; handles := Schema_handles |}.
Definition anything : Factory (Handle := handle) (WrapperType := string) :=
  {| type := "Anything"; handles := fun _ => true |}.
Definition construct_named (type : string) (config : value handle)
  : result string := OK type.
End Reference.

(** ** More samples on the reference collaborators *)

Module Samples.
Import Reference.

(** the schema [new Schema(cities)] builds and the calls it makes *)
Definition cities_schema : Schema (Handle := handle) :=
  {| _schema := Some {| getName := "cities";
                        getCoordinateReferenceSystem := Some (crs "EPSG:4326");
                        getAttributeDescriptors :=
                          [descriptor "the_geom" "Point" (Some "EPSG:4326");
                           descriptor "name" "String" None] |} |}.

Definition cities_trace : trace (Handle := handle) :=
  [new_SimpleFeatureTypeBuilder; setName "cities"; setCRS (crs "EPSG:4326");
   add (descriptor "the_geom" "Point" (Some "EPSG:4326"));
   add (descriptor "name" "String" None); buildFeatureType].

(** a stand-in for [Field.fromValue]: the type of the field follows the
    kind of the value *)
Definition field_of_value (name : string) (v : value handle) : result handle :=
  OK (descriptor name
        (if String.eqb (typeof v) "string" then "String"
         else if String.eqb (typeof v) "number" then "Double"
         else "Object")
        None).

(** schemas as the engine may hand them over: without fields, and with a
    single field named by the empty string *)
Definition no_fields : Schema (Handle := handle) :=
  Schema_from_ {| getName := "empty"; getCoordinateReferenceSystem := None;
                  getAttributeDescriptors := [] |}.
Definition unnamed_field : Schema (Handle := handle) :=
  Schema_from_ {| getName := "empty"; getCoordinateReferenceSystem := None;
                  getAttributeDescriptors := [descriptor "" "String" None] |}.
End Samples.

(** * Properties *)

(** ** The monad *)

Lemma bind_OK {S A B} (m : M S A) (k : A -> M S B) s b s' :
  bind m k s = (OK b, s') ->
  exists a s1, m s = (OK a, s1) /\ k a s1 = (OK b, s').
Proof.
  unfold bind. destruct (m s) as [[a|e] s1]; [eauto | discriminate].
Qed.

Lemma bind_step {S A B} (m : M S A) (k : A -> M S B) s a s1 :
  m s = (OK a, s1) -> bind m k s = k a s1.
Proof. intros E. unfold bind. now rewrite E. Qed.

Lemma lift_OK {S A} (r : result A) (s s' : S) a :
  lift r s = (OK a, s') -> r = OK a /\ s' = s.
Proof. unfold lift. intros [= -> ->]. auto. Qed.

(** ** Schema *)

Section FeatureProperties.
Context {Handle : Type} `{FeatureCollaborators Handle}.
Local Abbreviation value := (value Handle).
Implicit Types (config field : value) (t : trace (Handle := Handle)).
Implicit Types (builder : SimpleFeatureTypeBuilder (Handle := Handle)).

(** What the callback of the constructor does to the builder: the name
    stays, the descriptor of the field goes last. *)
Lemma add_field_OK builder field t builder' t' :
  add_field builder field t = (OK builder', t') ->
  exists _field,
    as_Field field = OK _field /\
    b_name builder' = b_name builder /\
    b_attributes builder' = b_attributes builder ++ [_field].
Proof.
  unfold add_field. intros E.
  apply bind_OK in E as (_field & t1 & E1 & E).
  apply lift_OK in E1 as [E1 ->].
  apply bind_OK in E as (b1 & t2 & E2 & E).
  exists _field. split; [exact E1|].
  assert (b_name b1 = b_name builder /\ b_attributes b1 = b_attributes builder)
    as [N1 A1].
  { destruct (GEOM (Field_type _field)); [destruct (Field_projection _field)|];
      cbv [builder_setCRS record modify bind ret] in E2;
      injection E2 as <- _; auto. }
  cbv [builder_add record modify bind ret] in E. injection E as <- _.
  simpl. now rewrite N1, A1.
Qed.

Lemma add_fields_OK fields : forall builder t builder' t',
  add_fields builder fields t = (OK builder', t') ->
  exists _fields,
    as_Fields fields = OK _fields /\
    b_name builder' = b_name builder /\
    b_attributes builder' = b_attributes builder ++ _fields.
Proof.
  induction fields as [|field rest IH]; simpl; intros builder t builder' t' E.
  - injection E as <- _. exists []. now rewrite app_nil_r.
  - apply bind_OK in E as (b1 & t1 & E1 & E).
    apply add_field_OK in E1 as (h & Eh & N1 & A1).
    apply IH in E as (hs & Ehs & N2 & A2).
    exists (h :: hs). rewrite Eh, Ehs. split; [reflexivity|].
    split; [congruence|]. rewrite A2, A1, <- app_assoc. reflexivity.
Qed.

(** A constructor call that returns normally on a present configuration
    went through the guard and built the type from the fields array. *)
Lemma Schema_constructor_OK config t this t' :
  truthy config = true ->
  Schema_constructor config t = (OK this, t') ->
  exists fields _fields,
    member (prepConfig config) "fields" = VArray fields /\
    as_Fields fields = OK _fields /\
    Schema_name this =
      OK (NameImpl (js_or (member (prepConfig config) "name") (VStr "feature"))) /\
    Schema_fields this = OK _fields.
Proof.
  intros T E. unfold Schema_constructor in E. rewrite T in E.
  destruct (negb (truthy (member (prepConfig config) "fields"))
            || negb (has_forEach (member (prepConfig config) "fields")));
    [discriminate|].
  apply bind_OK in E as (b0 & t0 & E0 & E).
  cbv [builder_new record modify bind ret] in E0. injection E0 as <- <-.
  apply bind_OK in E as (b1 & t1 & E1 & E).
  cbv [builder_setName record modify bind ret] in E1. simpl in E1.
  injection E1 as <- <-.
  apply bind_OK in E as (b2 & t2 & E2 & E).
  destruct (member (prepConfig config) "fields") as [| | | | |fields| |];
    try discriminate.
  apply add_fields_OK in E2 as (hs & Ehs & N2 & A2). simpl in N2, A2.
  apply bind_OK in E as (ft & t3 & E3 & E).
  cbv [builder_buildFeatureType record modify bind ret] in E3.
  injection E3 as <- _. injection E as <- _.
  exists fields, hs. split; [reflexivity|]. split; [exact Ehs|].
  unfold Schema_name, Schema_fields. simpl. now rewrite N2, A2.
Qed.

(** C9.  A schema constructed from a configuration that omits the [name]
    key answers [name] with "feature". *)
Theorem Schema_name_default config t this t' :
  truthy config = true ->
  member (prepConfig config) "name" = VUndefined ->
  Schema_constructor config t = (OK this, t') ->
  Schema_name this = OK "feature".
Proof.
  intros T N E.
  apply Schema_constructor_OK in E as (fields & hs & _ & _ & En & _);
    [|exact T].
  rewrite N in En. exact En.
Qed.

(** A name that is given, as a string other than the empty one, is the
    name of the schema. *)
Lemma Schema_name_given config t this t' n :
  truthy config = true ->
  member (prepConfig config) "name" = VStr n ->
  n <> "" ->
  Schema_constructor config t = (OK this, t') ->
  Schema_name this = OK n.
Proof.
  intros T N Hn E.
  apply Schema_constructor_OK in E as (fields & hs & _ & _ & En & _);
    [|exact T].
  rewrite N in En. unfold js_or in En. simpl in En.
  destruct (String.eqb_spec n "") as [->|_]; [contradiction | exact En].
Qed.




Lemma get_loop_first (l1 : list Handle) : forall h l2 n,
  Field_name h = n ->
  (forall h', h' ∈ l1 -> Field_name h' <> n) ->
  get_loop (l1 ++ h :: l2) (VStr n) = VInstance Field h.
Proof.
  induction l1 as [|h0 l1 IH]; intros h l2 n Hn Hne; simpl.
  - rewrite Hn, String.eqb_refl. reflexivity.
  - destruct (String.eqb_spec (Field_name h0) n) as [E|_].
    + exfalso. apply (Hne h0); [left | exact E].
    + apply IH; [exact Hn|]. intros h' Hin. apply Hne. now right.
Qed.

Lemma get_loop_none (fields : list Handle) n :
  (forall h, h ∈ fields -> Field_name h <> n) ->
  get_loop fields (VStr n) = VUndefined.
Proof.
  induction fields as [|h0 l IH]; intros Hne; simpl; [reflexivity|].
  destruct (String.eqb_spec (Field_name h0) n) as [E|_].
  - exfalso. apply (Hne h0); [left | exact E].
  - apply IH. intros h Hin. apply Hne. now right.
Qed.

(** C10.  On a constructed schema, [get(name)] returns the first field,
    in the order of the schema's fields, whose name is the given string,
    and returns [undefined], without throwing, when there is none. *)
Theorem Schema_get_first (this : Schema) (fields : list Handle) (n : string) :
  Schema_fields this = OK fields ->
  (forall l1 h l2,
      fields = l1 ++ h :: l2 ->
      Field_name h = n ->
      (forall h', h' ∈ l1 -> Field_name h' <> n) ->
      Schema_get this (VStr n) = OK (VInstance Field h)) /\
  ((forall h, h ∈ fields -> Field_name h <> n) ->
   Schema_get this (VStr n) = OK VUndefined).
Proof.
  intros F. unfold Schema_get. rewrite F. simpl. split.
  - intros l1 h l2 -> Hn Hne. f_equal. now apply get_loop_first.
  - intros Hne. f_equal. now apply get_loop_none.
Qed.

(** C4, amended.  When a configuration is present (truthy) and its
    normalised form has no truthy [fields] value, or one without a truthy
    [forEach] member, the constructor throws
    "Construct schema with a fields array." and has made no call on the
    engine: the trace of calls is as it was. *)
Theorem Schema_constructor_fails_fast config t :
  truthy config = true ->
  truthy (member (prepConfig config) "fields") = false
  \/ has_forEach (member (prepConfig config) "fields") = false ->
  Schema_constructor config t
  = (Throw (Error "Construct schema with a fields array."), t).
Proof.
  intros T L. unfold Schema_constructor. rewrite T.
  destruct L as [-> | ->]; simpl; [reflexivity|].
  now rewrite orb_true_r.
Qed.

(** *** The merge of [clone] *)



Lemma find_configField_defined n (os : list value) :
  forallb defined os = true ->
  find_configField n os = OK (List.find (named n) os).
Proof.
  induction os as [|o os IH]; simpl; [reflexivity|].
  intros D. apply andb_prop in D as [Do Dos].
  unfold member_of, named.
  destruct o; try discriminate;
    (destruct (strict_equal_string n _); [reflexivity | now apply IH]).
Qed.

Lemma replace_existing_spec (os : list value) (hs : list Handle) :
  forallb defined os = true ->
  forall acc ex,
    replace_existing hs os acc ex
    = OK (acc ++ map (fun f =>
                        default (VInstance Field f)
                                (List.find (named (Field_name f)) os)) hs,
          fold_left (fun existing f =>
                       set_prop (Field_name f) (VBool true) existing)
                    hs ex).
Proof.
  intros D. induction hs as [|h hs IH]; intros acc ex; simpl.
  - now rewrite app_nil_r.
  - rewrite find_configField_defined by exact D.
    destruct (List.find (named (Field_name h)) os) as [o|];
      rewrite IH, <- app_assoc; reflexivity.
Qed.

Lemma add_new_spec (ex : list (string * value)) (os : list value) :
  forallb defined os = true ->
  forall acc,
    add_new os ex acc
    = OK (acc ++ List.filter
                   (fun o => negb (js_in (property_key (member o "name")) ex))
                   os).
Proof.
  induction os as [|o os IH]; simpl; intros D acc.
  - now rewrite app_nil_r.
  - apply andb_prop in D as [Do Dos].
    assert (member_of o "name" = OK (member o "name")) as ->
      by (destruct o; try discriminate; reflexivity).
    destruct (negb (js_in (property_key (member o "name")) ex)).
    + rewrite IH by exact Dos. now rewrite <- app_assoc.
    + now apply IH.
Qed.

(** [clone] builds a schema from the merged configuration. *)
Lemma Schema_clone_spec (this : Schema) config hs n0 (os : list value) t :
  Schema_fields this = OK hs ->
  Schema_name this = OK n0 ->
  js_or (js_and config (member config "fields")) (VArray []) = VArray os ->
  forallb defined os = true ->
  Schema_clone this config t
  = Schema_constructor
      (VObject [("name", js_or (js_and config (member config "name")) (VStr n0));
                ("fields", VArray (clone_fields hs os))]) t.
Proof.
  intros F N C D. unfold Schema_clone. rewrite C, F.
  unfold bind at 1, lift at 1.
  rewrite replace_existing_spec by exact D.
  unfold bind at 1, lift at 1. cbn [fst snd].
  rewrite add_new_spec by exact D.
  unfold bind at 1, lift at 1. simpl app.
  unfold js_or, clone_fields, marks.
  destruct (truthy (js_and config (member config "name")));
    [reflexivity|].
  rewrite N. reflexivity.
Qed.


(** *** Round trip through [config] *)

Lemma add_field_run builder field t h :
  as_Field field = OK h ->
  exists builder' t',
    add_field builder field t = (OK builder', t') /\
    b_name builder' = b_name builder /\
    b_attributes builder' = b_attributes builder ++ [h].
Proof.
  intros E. unfold add_field. rewrite E.
  unfold bind at 1, lift at 1.
  destruct (GEOM (Field_type h)); [destruct (Field_projection h)|];
    cbv [builder_setCRS builder_add record modify bind ret]; simpl;
    eexists _, _; (split; [reflexivity|]); simpl; auto.
Qed.

Lemma add_fields_run (fields : list value) : forall builder t hs,
  as_Fields fields = OK hs ->
  exists builder' t',
    add_fields builder fields t = (OK builder', t') /\
    b_name builder' = b_name builder /\
    b_attributes builder' = b_attributes builder ++ hs.
Proof.
  induction fields as [|f rest IH]; simpl; intros builder t hs E.
  - injection E as <-. exists builder, t. now rewrite app_nil_r.
  - destruct (as_Field f) as [h|e] eqn:Eh; [|discriminate].
    destruct (as_Fields rest) as [hs'|e] eqn:Ehs; [|discriminate].
    injection E as <-.
    destruct (add_field_run builder f t h Eh) as (b1 & t1 & E1 & N1 & A1).
    destruct (IH b1 t1 hs' eq_refl) as (b2 & t2 & E2 & N2 & A2).
    exists b2, t2. rewrite (bind_step _ _ _ _ _ E1).
    split; [exact E2|]. split; [congruence|].
    rewrite A2, A1, <- app_assoc. reflexivity.
Qed.

Lemma as_Fields_config (hs : list Handle) :
  Field_roundtrip ->
  exists hs', as_Fields (map Field_config hs) = OK hs'
              /\ map Field_config hs' = map Field_config hs.
Proof.
  intros L. induction hs as [|h hs (hs' & E & Ec)]; simpl.
  - exists []. auto.
  - destruct (L h) as (h' & Eh & Ech). exists (h' :: hs').
    rewrite Eh, E. simpl. now rewrite Ech, Ec.
Qed.

(** The schema half of the round trip. *)
Lemma Schema_config_roundtrip config t this t' c :
  Field_roundtrip ->
  name_is_string config ->
  Schema_constructor config t = (OK this, t') ->
  Schema_config this = OK c ->
  exists this' t'',
    Schema_constructor c t' = (OK this', t'') /\ Schema_config this' = OK c.
Proof.
  intros L V E Ec.
  destruct (truthy config) eqn:T.
  2:{ unfold Schema_constructor in E. rewrite T in E. injection E as <- _.
      discriminate. }
  apply Schema_constructor_OK in E as (fields & hs & _ & _ & En & Ef);
    [|exact T].
  unfold Schema_config in Ec. rewrite En, Ef in Ec. injection Ec as <-.
  set (nm := NameImpl (js_or (member (prepConfig config) "name")
                             (VStr "feature"))) in *.
  assert (String.eqb nm "" = false) as Hnm.
  { subst nm. unfold js_or.
    destruct V as [-> | [s Es]]; [reflexivity|].
    rewrite Es. simpl.
    destruct (String.eqb s "") eqn:Es'; simpl; [reflexivity | exact Es']. }
  destruct (as_Fields_config hs L) as (hs' & Ehs & Ecs).
  unfold Schema_constructor. cbn [truthy].
  change (prepConfig (VObject [("type", VStr "Schema"); ("name", VStr nm);
                               ("fields", VArray (map Field_config hs))]))
    with (VObject [("type", VStr "Schema"); ("name", VStr nm);
                   ("fields", VArray (map Field_config hs))] : value).
  cbn [member own String.eqb Ascii.eqb Bool.eqb default truthy has_forEach
       negb orb from_option id].
  unfold js_or. cbn [truthy]. rewrite Hnm. cbn [negb NameImpl property_key].
  unfold builder_new at 1. unfold builder_setName at 1.
  cbv [record modify ret]. unfold bind at 1 2 3 4. cbn [b_crs b_attributes].
  destruct (add_fields_run (map Field_config hs)
              {| b_name := nm; b_crs := None; b_attributes := [] |}
              ((t' ++ [new_SimpleFeatureTypeBuilder]) ++ [setName nm]) hs' Ehs)
    as (b2 & t2 & E2 & N2 & A2).
  unfold bind at 1. rewrite E2.
  cbv [builder_buildFeatureType record modify ret bind].
  eexists _, _. split; [reflexivity|].
  unfold Schema_config, Schema_name, Schema_fields. simpl.
  rewrite N2, A2. simpl. now rewrite Ecs.
Qed.
End FeatureProperties.

(** ** Shape *)

Section StyleProperties.
Context {Handle : Type} `{StyleCollaborators Handle}.
Local Abbreviation value := (value Handle).
Implicit Types (s : state (Handle := Handle)).
Implicit Types (p : PointSymbolizer (Handle := Handle)).

(** *** The cached handle *)

Lemma get__symbolizer_cached s r :
  cache (this s) !! "_symbolizer" = Some r ->
  get__symbolizer s = (OK (Some r), s).
Proof.
  intros C. unfold get__symbolizer, bind. rewrite C.
  rewrite bool_decide_eq_true_2 by eauto. simpl. now rewrite C.
Qed.

Lemma get__symbolizer_first s :
  cache (this s) !! "_symbolizer" = None ->
  get__symbolizer s
  = (OK (Some (fresh (dom (symbolizers s)))),
     {| this := {| cache := <["_symbolizer" := fresh (dom (symbolizers s))]>
                              (cache (this s)) |};
        symbolizers := <[fresh (dom (symbolizers s)) := default_symbolizer]>
                         (symbolizers s) |}).
Proof.
  intros C. unfold get__symbolizer, bind. rewrite C.
  rewrite bool_decide_eq_false_2 by (intros [? [=]]).
  cbv [negb createPointSymbolizer set__symbolizer modify bind]. simpl.
  now rewrite lookup_insert_eq.
Qed.

Lemma getter_view (get : PointSymbolizer -> Handle) s p :
  view s = Some p ->
  exists s', getter get s = (OK (get p), s') /\ view s' = Some p
             /\ is_Some (cache (this s') !! "_symbolizer").
Proof.
  unfold view, getter. intros V.
  destruct (cache (this s) !! "_symbolizer") as [r|] eqn:C.
  - exists s. rewrite (bind_step _ _ _ _ _ (get__symbolizer_cached s r C)), V.
    unfold view. rewrite C. eauto.
  - injection V as <-.
    rewrite (bind_step _ _ _ _ _ (get__symbolizer_first s C)). simpl.
    rewrite lookup_insert_eq. eexists. split; [reflexivity|].
    unfold view. simpl. rewrite !lookup_insert_eq. eauto.
Qed.

Lemma getter_OK (get : PointSymbolizer -> Handle) s h s' :
  getter get s = (OK h, s') ->
  exists p, view s = Some p /\ h = get p.
Proof.
  unfold view, getter. intros E.
  destruct (cache (this s) !! "_symbolizer") as [r|] eqn:C.
  - rewrite (bind_step _ _ _ _ _ (get__symbolizer_cached s r C)) in E.
    destruct (symbolizers s !! r) as [p|]; [|discriminate].
    injection E as <- _. eauto.
  - rewrite (bind_step _ _ _ _ _ (get__symbolizer_first s C)) in E.
    simpl in E. rewrite lookup_insert_eq in E. injection E as <- _. eauto.
Qed.

Lemma setter_view (set : PointSymbolizer -> PointSymbolizer) s p :
  view s = Some p ->
  exists s', setter set s = (OK tt, s') /\ view s' = Some (set p).
Proof.
  unfold view, setter. intros V.
  destruct (cache (this s) !! "_symbolizer") as [r|] eqn:C.
  - rewrite (bind_step _ _ _ _ _ (get__symbolizer_cached s r C)), V.
    eexists. split; [reflexivity|]. unfold view. simpl.
    now rewrite C, lookup_insert_eq.
  - injection V as <-.
    rewrite (bind_step _ _ _ _ _ (get__symbolizer_first s C)). simpl.
    rewrite lookup_insert_eq. eexists. split; [reflexivity|].
    unfold view. simpl. now rewrite !lookup_insert_eq.
Qed.

(** *** Range of the opacity *)

Lemma Shape_set_opacity_in_range (x : float) s p :
  view s = Some p ->
  PrimFloat.ltb x 0 = false ->
  PrimFloat.ltb 1 x = false ->
  exists s',
    Shape_set_opacity (VNum x) s = (OK tt, s') /\
    view s' = Some (setOpacity (Expression_literal (VNum x)) p).
Proof.
  intros V L0 L1. unfold Shape_set_opacity. rewrite L0, L1. simpl.
  unfold bind at 1, lift at 1. now apply setter_view.
Qed.

(** C5.  Assigning to [opacity] a number below 0 or above 1 throws, at the
    assignment and before the engine is touched (the state is as it was),
    the error "Opacity must be a number between 0 and 1 (inclusive)";
    assigning 0, 0.5 or 1 returns normally and the opacity is then the
    literal of that number. *)
Theorem Shape_opacity_range :
  (forall (x : float) s,
      PrimFloat.ltb x 0 = true \/ PrimFloat.ltb 1 x = true ->
      Shape_set_opacity (VNum x) s
      = (Throw (Error "Opacity must be a number between 0 and 1 (inclusive)"),
         s)) /\
  (forall (x : float) s,
      well_formed s ->
      x = 0%float \/ x = 0.5%float \/ x = 1%float ->
      exists s' s'',
        Shape_set_opacity (VNum x) s = (OK tt, s') /\
        Shape_get_opacity s' = (OK (Expression_literal (VNum x)), s'')).
Proof.
  split.
  - intros x s L. unfold Shape_set_opacity.
    assert (PrimFloat.ltb x 0 || PrimFloat.ltb 1 x = true) as ->
      by (destruct L as [-> | ->]; [reflexivity | apply orb_true_r]).
    reflexivity.
  - intros x s [p V] Hx.
    destruct (Shape_set_opacity_in_range x s p V) as (s' & E & V').
    + destruct Hx as [-> | [-> | ->]]; reflexivity.
    + destruct Hx as [-> | [-> | ->]]; reflexivity.
    + destruct (getter_view opacity s' _ V') as (s'' & G & _).
      exists s', s''. split; [exact E | exact G].
Qed.

(** *** Lifetime of the cached handle *)

Lemma getter_cached (get : PointSymbolizer -> Handle) s r :
  cache (this s) !! "_symbolizer" = Some r -> (getter get s).2 = s.
Proof.
  intros C. unfold getter.
  rewrite (bind_step _ _ _ _ _ (get__symbolizer_cached s r C)).
  destruct (symbolizers s !! r); reflexivity.
Qed.

Lemma setter_cached (set : PointSymbolizer -> PointSymbolizer) s r :
  cache (this s) !! "_symbolizer" = Some r -> this (setter set s).2 = this s.
Proof.
  intros C. unfold setter.
  rewrite (bind_step _ _ _ _ _ (get__symbolizer_cached s r C)).
  destruct (symbolizers s !! r); reflexivity.
Qed.

Lemma lift_setter_cached (e : result Handle)
    (set : Handle -> PointSymbolizer -> PointSymbolizer) s r :
  cache (this s) !! "_symbolizer" = Some r ->
  this (bind (lift e) (fun h => setter (set h)) s).2 = this s.
Proof.
  intros C. unfold bind at 1, lift. destruct e as [h|err]; [|reflexivity].
  now apply (setter_cached _ s r).
Qed.

Lemma Shape_config_cached s r :
  cache (this s) !! "_symbolizer" = Some r -> (Shape_config s).2 = s.
Proof.
  intros C. unfold Shape_config.
  unfold Shape_get_name, Shape_get_size, Shape_get_opacity,
    Shape_get_rotation, Shape_get_fill, Shape_get_stroke.
  repeat (unfold bind at 1;
          match goal with
          | |- context [getter ?g s] =>
              let E := fresh "E" in
              pose proof (getter_cached g s r C) as E;
              destruct (getter g s) as [[?|?] ?]; simpl in E; subst;
              [|reflexivity]
          end).
  reflexivity.
Qed.

Lemma perform_cached (op : operation) s r :
  cache (this s) !! "_symbolizer" = Some r ->
  cache (this (perform op s)) !! "_symbolizer" = Some r.
Proof.
  intros C.
  assert (this (perform op s) = this s) as ->; [|exact C].
  destruct op; simpl;
    try (unfold Shape_get_name, Shape_get_size, Shape_get_opacity,
           Shape_get_rotation, Shape_get_fill, Shape_get_stroke;
         now rewrite (getter_cached _ s r C));
    try (unfold Shape_set_name, Shape_set_size, Shape_set_opacity,
           Shape_set_rotation, Shape_set_fill, Shape_set_stroke;
         now apply (lift_setter_cached _ _ s r)).
  - now rewrite (get__symbolizer_cached s r C).
  - now rewrite (Shape_config_cached s r C).
  - unfold Shape_clone, bind.
    pose proof (Shape_config_cached s r C) as E.
    destruct (Shape_config s) as [[c|e] s1]; simpl in E; subst s1;
      [|reflexivity].
    destruct (Shape_constructor c s) as [[u|e] s2]; reflexivity.
  - unfold Shape_toFullString, Shape_get_name, Shape_get_size.
    unfold bind at 1.
    pose proof (getter_cached wellKnownName s r C) as E.
    destruct (getter wellKnownName s) as [[h|e] s1]; simpl in E; subst s1;
      [|reflexivity].
    unfold bind at 1.
    pose proof (getter_cached size s r C) as E.
    destruct (getter size s) as [[h'|e] s1]; simpl in E; subst s1; reflexivity.
Qed.

Lemma perform_all_cached (ops : list operation) : forall s r,
  cache (this s) !! "_symbolizer" = Some r ->
  cache (this (perform_all ops s)) !! "_symbolizer" = Some r.
Proof.
  induction ops as [|op ops IH]; intros s r C; [exact C|].
  apply IH. now apply perform_cached.
Qed.

(** C8.  The first read of [_symbolizer] makes the handle and stores it in
    the cache of the instance: when the cache had none, the reference is
    one the engine did not have before; whatever the shape is then used
    for, the cache keeps that reference, and every later read returns it
    and leaves the state, the engine's objects included, as it is. *)
Theorem Shape_symbolizer_memoized s :
  exists r s1,
    get__symbolizer s = (OK (Some r), s1) /\
    cache (this s1) !! "_symbolizer" = Some r /\
    (cache (this s) !! "_symbolizer" = None ->
     (r ∉ dom (symbolizers s)) /\
     symbolizers s1 = <[r := default_symbolizer]> (symbolizers s)) /\
    forall ops : list operation,
      cache (this (perform_all ops s1)) !! "_symbolizer" = Some r /\
      get__symbolizer (perform_all ops s1)
      = (OK (Some r), perform_all ops s1).
Proof.
  destruct (cache (this s) !! "_symbolizer") as [r|] eqn:C.
  - exists r, s. split; [now apply get__symbolizer_cached|].
    split; [exact C|]. split; [discriminate|].
    intros ops. pose proof (perform_all_cached ops s r C) as K.
    split; [exact K | now apply get__symbolizer_cached].
  - eexists _, _. split; [now apply get__symbolizer_first|].
    simpl. split; [apply lookup_insert_eq|].
    split; [intros _; split; [apply is_fresh | reflexivity]|].
    intros ops.
    match goal with |- context [perform_all ops ?s1] =>
      assert (cache (this s1) !! "_symbolizer"
              = Some (fresh (dom (symbolizers s)))) as C1
        by apply lookup_insert_eq;
      pose proof (perform_all_cached ops s1 _ C1) as K
    end.
    split; [exact K | now apply get__symbolizer_cached].
Qed.

(** *** Reading [config] *)

Lemma Shape_config_cases s p :
  view s = Some p ->
  exists s', Shape_config s = (OK (symbolizer_config p), s')
             /\ view s' = Some p
             /\ exists r, cache (this s') !! "_symbolizer" = Some r.
Proof.
  intros V. unfold Shape_config.
  unfold Shape_get_name, Shape_get_size, Shape_get_opacity,
    Shape_get_rotation, Shape_get_fill, Shape_get_stroke.
  destruct (getter_view wellKnownName s p V) as (s1 & E1 & V1 & _).
  destruct (getter_view size s1 p V1) as (s2 & E2 & V2 & _).
  destruct (getter_view opacity s2 p V2) as (s3 & E3 & V3 & _).
  destruct (getter_view rotation s3 p V3) as (s4 & E4 & V4 & _).
  destruct (getter_view fill s4 p V4) as (s5 & E5 & V5 & _).
  destruct (getter_view stroke s5 p V5) as (s6 & E6 & V6 & [r C6]).
  exists s6.
  rewrite (bind_step _ _ _ _ _ E1), (bind_step _ _ _ _ _ E2),
    (bind_step _ _ _ _ _ E3), (bind_step _ _ _ _ _ E4),
    (bind_step _ _ _ _ _ E5), (bind_step _ _ _ _ _ E6).
  split; [reflexivity|]. split; [exact V6 | eauto].
Qed.

(** *** Well-formed states *)

(** The symbolizer at a reference that is not the cached one is out of
    reach of the instance: no operation on the instance changes it. *)
Lemma get__symbolizer_frame s r0 p0 :
  symbolizers s !! r0 = Some p0 ->
  cache (this s) !! "_symbolizer" <> Some r0 ->
  exists r1,
    (get__symbolizer s).1 = OK (Some r1) /\
    cache (this (get__symbolizer s).2) !! "_symbolizer" = Some r1 /\
    r1 <> r0 /\
    symbolizers (get__symbolizer s).2 !! r0 = Some p0.
Proof.
  intros S0 N.
  destruct (cache (this s) !! "_symbolizer") as [r|] eqn:C.
  - rewrite (get__symbolizer_cached s r C). exists r. simpl.
    repeat split; [exact C | congruence | exact S0].
  - rewrite (get__symbolizer_first s C). eexists. simpl.
    assert (fresh (dom (symbolizers s)) <> r0) as F.
    { intros <-. apply (is_fresh (dom (symbolizers s))).
      apply elem_of_dom. eauto. }
    repeat split; [apply lookup_insert_eq | exact F |].
    now rewrite lookup_insert_ne.
Qed.

Lemma setter_frame (set : PointSymbolizer -> PointSymbolizer) s r0 p0 :
  symbolizers s !! r0 = Some p0 ->
  cache (this s) !! "_symbolizer" <> Some r0 ->
  symbolizers (setter set s).2 !! r0 = Some p0 /\
  cache (this (setter set s).2) !! "_symbolizer" <> Some r0.
Proof.
  intros S0 N.
  destruct (get__symbolizer_frame s r0 p0 S0 N) as (r1 & E & C1 & N1 & S1).
  unfold setter, bind.
  destruct (get__symbolizer s) as [res s1]. simpl in *. subst res.
  destruct (symbolizers s1 !! r1); simpl.
  - rewrite lookup_insert_ne by exact N1. split; [exact S1 | congruence].
  - split; [exact S1 | congruence].
Qed.

Lemma lift_setter_frame (e : result Handle)
    (set : Handle -> PointSymbolizer -> PointSymbolizer) s r0 p0 :
  symbolizers s !! r0 = Some p0 ->
  cache (this s) !! "_symbolizer" <> Some r0 ->
  symbolizers (bind (lift e) (fun h => setter (set h)) s).2 !! r0 = Some p0 /\
  cache (this (bind (lift e) (fun h => setter (set h)) s).2) !! "_symbolizer"
  <> Some r0.
Proof.
  intros S0 N. unfold bind at 1 2, lift. destruct e as [h|err].
  - now apply setter_frame.
  - split; assumption.
Qed.

Lemma Shape_assign_frame (kv : string * value) s r0 p0 :
  symbolizers s !! r0 = Some p0 ->
  cache (this s) !! "_symbolizer" <> Some r0 ->
  symbolizers (Shape_assign kv s).2 !! r0 = Some p0 /\
  cache (this (Shape_assign kv s).2) !! "_symbolizer" <> Some r0.
Proof.
  intros S0 N. unfold Shape_assign.
  repeat match goal with
         | |- context [if ?b then _ else _] => destruct b
         end;
    try (split; assumption);
    unfold Shape_set_name, Shape_set_size, Shape_set_opacity,
      Shape_set_rotation, Shape_set_fill, Shape_set_stroke;
    now apply lift_setter_frame.
Qed.

Lemma assign_all_frame (entries : list (string * value)) : forall s r0 p0,
  symbolizers s !! r0 = Some p0 ->
  cache (this s) !! "_symbolizer" <> Some r0 ->
  symbolizers (assign_all entries s).2 !! r0 = Some p0.
Proof.
  induction entries as [|kv rest IH]; intros s r0 p0 S0 N; simpl.
  - exact S0.
  - destruct (Shape_assign_frame kv s r0 p0 S0 N) as [S1 N1].
    unfold bind. destruct (Shape_assign kv s) as [[u|e] s1]; simpl in *.
    + now apply IH.
    + exact S1.
Qed.

(** Constructing another shape leaves the symbolizers the engine already
    has as they are. *)
Lemma Shape_constructor_frame config s r0 p0 :
  symbolizers s !! r0 = Some p0 ->
  symbolizers (Shape_constructor config s).2 !! r0 = Some p0.
Proof.
  intros S0. unfold Shape_constructor, Symbolizer_constructor.
  unfold bind at 1, modify.
  destruct (truthy (Shape_constructor_config config)); [|exact S0].
  apply assign_all_frame; [exact S0|]. simpl. now rewrite lookup_empty.
Qed.





(** *** Round trip through [config] *)

Lemma Shape_config_view s p :
  view s = Some p ->
  exists s', Shape_config s = (OK (symbolizer_config p), s')
             /\ view s' = Some p.
Proof.
  intros V. destruct (Shape_config_cases s p V) as (s' & E & V' & _). eauto.
Qed.

Lemma Shape_config_OK s c s' :
  Shape_config s = (OK c, s') ->
  exists p, view s' = Some p /\ c = symbolizer_config p.
Proof.
  intros E. pose proof E as E0. unfold Shape_config in E0.
  apply bind_OK in E0 as (h & s1 & E1 & _).
  apply getter_OK in E1 as (p & V & _).
  destruct (Shape_config_view s p V) as (s'' & E' & V').
  rewrite E' in E. injection E as <- <-. eauto.
Qed.

Section Laws.
Hypothesis Expression_law : roundtrip Expression_constructor Expression_config.
Hypothesis Fill_law : roundtrip Fill_constructor Fill_config.
Hypothesis Stroke_law : roundtrip Stroke_constructor Stroke_config.

Lemma assign_expression_config
    (assign : value -> M state unit)
    (set : Handle -> PointSymbolizer -> PointSymbolizer) h s p :
  (forall ps, assign (VObject ps)
              = bind (lift (Expression_constructor (VObject ps)))
                     (fun e => setter (set e))
              \/ exists message,
                  assign (VObject ps)
                  = bind (lift (Expression_or message (VObject ps)))
                         (fun e => setter (set e))) ->
  view s = Some p ->
  exists h' s',
    assign (Expression_config h) s = (OK tt, s') /\
    view s' = Some (set h' p) /\
    Expression_config h' = Expression_config h.
Proof.
  intros A V. destruct (Expression_law h) as ((ps & Eps) & h' & Ec & Eh).
  rewrite Eps in Ec.
  destruct (setter_view (set h') s p V) as (s' & E & V').
  exists h', s'. rewrite Eps. split; [|split; [exact V'|congruence]].
  destruct (A ps) as [-> | [message ->]]; unfold bind at 1, lift at 1.
  - now rewrite Ec.
  - unfold Expression_or. now rewrite Ec.
Qed.

Lemma assign_paint_config
    (constructor : value -> result Handle) (config : Handle -> value)
    (assign : value -> M state unit)
    (set : Handle -> PointSymbolizer -> PointSymbolizer) h s p :
  roundtrip constructor config ->
  (forall ps, assign (VObject ps)
              = bind (lift (constructor (VObject ps)))
                     (fun e => setter (set e))) ->
  view s = Some p ->
  exists h' s',
    assign (config h) s = (OK tt, s') /\
    view s' = Some (set h' p) /\
    config h' = config h.
Proof.
  intros L A V. destruct (L h) as ((ps & Eps) & h' & Ec & Eh).
  rewrite Eps in Ec.
  destruct (setter_view (set h') s p V) as (s' & E & V').
  exists h', s'. rewrite Eps. split; [|split; [exact V'|congruence]].
  rewrite A. unfold bind at 1, lift at 1. now rewrite Ec.
Qed.

(** A shape made from the [config] of a symbolizer has that [config]. *)
Lemma Shape_constructor_config_of p0 s :
  exists s' p,
    Shape_constructor (symbolizer_config p0) s = (OK tt, s') /\
    view s' = Some p /\
    symbolizer_config p = symbolizer_config p0.
Proof.
  unfold Shape_constructor.
  change (Shape_constructor_config (symbolizer_config p0))
    with (symbolizer_config p0).
  unfold Symbolizer_constructor.
  unfold bind at 1, modify at 1. cbn [truthy symbolizer_config for_in].
  set (s0 := {| this := {| cache := ∅ |}; symbolizers := symbolizers s |}).
  assert (view s0 = Some default_symbolizer) as V0 by reflexivity.
  cbn [assign_all].
  unfold Shape_assign at 1. cbn [fst snd String.eqb Ascii.eqb Bool.eqb].
  unfold bind at 1, ret at 1.
  destruct (assign_expression_config Shape_set_name setWellKnownName
              (wellKnownName p0) s0 _ (fun ps => or_introl eq_refl) V0)
    as (h1 & s1 & E1 & V1 & C1).
  unfold Shape_assign at 1. cbn [fst snd String.eqb Ascii.eqb Bool.eqb].
  rewrite (bind_step _ _ _ _ _ E1).
  destruct (assign_expression_config Shape_set_size setSize
              (size p0) s1 _ (fun ps => or_introl eq_refl) V1)
    as (h2 & s2 & E2 & V2 & C2).
  unfold Shape_assign at 1. cbn [fst snd String.eqb Ascii.eqb Bool.eqb].
  rewrite (bind_step _ _ _ _ _ E2).
  destruct (assign_expression_config Shape_set_opacity setOpacity
              (opacity p0) s2 _
              (fun ps => or_intror (ex_intro _ _ eq_refl)) V2)
    as (h3 & s3 & E3 & V3 & C3).
  unfold Shape_assign at 1. cbn [fst snd String.eqb Ascii.eqb Bool.eqb].
  rewrite (bind_step _ _ _ _ _ E3).
  destruct (assign_expression_config Shape_set_rotation setRotation
              (rotation p0) s3 _
              (fun ps => or_intror (ex_intro _ _ eq_refl)) V3)
    as (h4 & s4 & E4 & V4 & C4).
  unfold Shape_assign at 1. cbn [fst snd String.eqb Ascii.eqb Bool.eqb].
  rewrite (bind_step _ _ _ _ _ E4).
  destruct (assign_paint_config Fill_constructor Fill_config
              Shape_set_fill setFill (fill p0) s4 _ Fill_law
              (fun ps => eq_refl) V4)
    as (h5 & s5 & E5 & V5 & C5).
  unfold Shape_assign at 1. cbn [fst snd String.eqb Ascii.eqb Bool.eqb].
  rewrite (bind_step _ _ _ _ _ E5).
  destruct (assign_paint_config Stroke_constructor Stroke_config
              Shape_set_stroke setStroke (stroke p0) s5 _ Stroke_law
              (fun ps => eq_refl) V5)
    as (h6 & s6 & E6 & V6 & C6).
  unfold Shape_assign at 1. cbn [fst snd String.eqb Ascii.eqb Bool.eqb].
  rewrite (bind_step _ _ _ _ _ E6).
  eexists s6, _. split; [reflexivity|]. split; [exact V6|].
  unfold symbolizer_config. simpl. now rewrite C1, C2, C3, C4, C5, C6.
Qed.

(** The shape half of the round trip. *)
Lemma Shape_config_roundtrip config s0 s1 c s2 :
  Shape_constructor config s0 = (OK tt, s1) ->
  Shape_config s1 = (OK c, s2) ->
  exists s3 s4,
    Shape_constructor c s2 = (OK tt, s3) /\ Shape_config s3 = (OK c, s4).
Proof.
  intros _ E. apply Shape_config_OK in E as (p0 & _ & ->).
  destruct (Shape_constructor_config_of p0 s2) as (s3 & p & E3 & V3 & C3).
  destruct (Shape_config_view s3 p V3) as (s4 & E4 & _).
  exists s3, s4. split; [exact E3|]. now rewrite E4, C3.
Qed.
End Laws.
End StyleProperties.

(** ** The registry *)

Section RegistryProperties.
Context {Handle WrapperType Wrapper : Type}.
Variable normalize : value Handle -> value Handle.
Variable construct : WrapperType -> value Handle -> result Wrapper.
Local Abbreviation Factory := (@Factory Handle WrapperType).

Lemma register_all_appends (entries : list Factory) : forall registry,
  register_all entries registry = (OK tt, registry ++ entries).
Proof.
  induction entries as [|entry rest IH]; intros registry; simpl.
  - now rewrite app_nil_r.
  - unfold bind, register, modify. rewrite IH, <- app_assoc. reflexivity.
Qed.

Lemma create_keeps config (registry : list Factory) :
  (create normalize construct config registry).2 = registry.
Proof. unfold create. destruct (scan _ registry); reflexivity. Qed.

Lemma create_all_keeps configs : forall registry : list Factory,
  (create_all normalize construct configs registry).2 = registry.
Proof.
  induction configs as [|config rest IH]; intros registry; simpl.
  - reflexivity.
  - now rewrite IH, create_keeps.
Qed.

Lemma scan_first (before : list Factory) entry after config :
  handles entry config = true ->
  (forall e, e ∈ before -> handles e config = false) ->
  scan config (before ++ entry :: after) = Some entry.
Proof.
  intros Hm. induction before as [|e0 before IH]; intros Hb; simpl.
  - now rewrite Hm.
  - rewrite (Hb e0) by left. apply IH. intros e Hin. apply Hb. now right.
Qed.

(** C3.  With the entries registered in the order [before], [entry],
    [after], where [entry] is the first whose predicate holds of the
    canonical configuration (others in [after] may hold too), [create]
    constructs the type of [entry], and does so after any run of earlier
    [create] calls, which leave the registry as it is. *)
Theorem create_first_match (before after : list Factory) (entry : Factory)
    (config : value Handle) (calls : list (value Handle))
    (registry registry' : list Factory) :
  registry = (register_all (before ++ entry :: after) []).2 ->
  registry' = (create_all normalize construct calls registry).2 ->
  handles entry (normalize config) = true ->
  (forall e, e ∈ before -> handles e (normalize config) = false) ->
  create normalize construct config registry'
  = (construct (type entry) (normalize config), registry').
Proof.
  intros -> -> Hm Hb.
  rewrite create_all_keeps, register_all_appends. simpl.
  unfold create. now rewrite scan_first.
Qed.
End RegistryProperties.

(** ** Normalisation leaves the caller's object alone *)

Module StoreProperties.
Import Store.

Lemma assign_other r k v (h : heap) r0 :
  r0 <> r -> assign r k v h !! r0 = h !! r0.
Proof.
  intros N. unfold assign. destruct (h !! r) as [[ps|xs]|]; try reflexivity.
  now rewrite lookup_insert_ne.
Qed.

Lemma assign_all_other r writes : forall (h : heap) r0,
  r0 <> r -> assign_all r writes h !! r0 = h !! r0.
Proof.
  unfold assign_all. induction writes as [|kv writes IH]; intros h r0 N; simpl.
  - reflexivity.
  - rewrite IH by exact N. now apply assign_other.
Qed.

Lemma assign_entries r (entries : list (string * value)) :
  forall (h : heap) (ps : gmap string value),
    fold_left (fun h' kv => assign r kv.1 kv.2 h') entries (<[r := Object ps]> h)
    = <[r := Object (fold_left (fun m kv => <[kv.1 := kv.2]> m) entries ps)]> h.
Proof.
  induction entries as [|[k v] entries IH]; intros h ps; simpl.
  - reflexivity.
  - unfold assign at 2. rewrite lookup_insert_eq, insert_insert_eq. apply IH.
Qed.

Lemma entries_of_map (ps : gmap string value) :
  fold_left (fun m kv => <[kv.1 := kv.2]> m) (map_to_list ps) ∅ = ps.
Proof.
  rewrite <- fold_left_rev_right.
  change (list_to_map (rev (map_to_list ps)) = ps).
  rewrite <- (list_to_map_proper (map_to_list ps) (rev (map_to_list ps))).
  - apply list_to_map_to_list.
  - apply NoDup_fst_map_to_list.
  - apply Permutation_rev.
Qed.

(** C7.  [prepConfig] returns a reference to a new object: one the store
    did not hold, so it is not the caller's object nor any other; every
    object the store held is afterwards as it was; when the input is a
    mapping the new object has exactly its entries (a shallow copy: nested
    values are the same references); and assignments made later to the
    result leave every other object as it was. *)
Theorem prepConfig_fresh_copy (config : value) (h : heap) :
  exists r h',
    prepConfig config h = (OK (Ref r), h') /\
    h !! r = None /\
    (forall r0, r0 <> r -> h' !! r0 = h !! r0) /\
    (forall r0 ps, config = Ref r0 -> h !! r0 = Some (Object ps) ->
                   r0 <> r /\ h' !! r = Some (Object ps)) /\
    (forall writes r0, r0 <> r -> assign_all r writes h' !! r0 = h !! r0).
Proof.
  set (r := fresh (dom h)).
  assert (h !! r = None) as Hr by apply not_elem_of_dom, is_fresh.
  unfold prepConfig. destruct (instanceof_Array h config) eqn:A.
  - exists r, (<[r := Object {["fields" := config]}]> h).
    split; [reflexivity|]. split; [exact Hr|].
    split; [intros r0 N; now rewrite lookup_insert_ne|].
    split.
    + intros r0 ps -> E. unfold instanceof_Array in A. rewrite E in A.
      discriminate.
    + intros writes r0 N. rewrite assign_all_other by exact N.
      now rewrite lookup_insert_ne.
  - unfold bind, alloc, apply. fold r.
    rewrite (assign_entries r _ h ∅).
    eexists r, _. split; [reflexivity|]. split; [exact Hr|].
    split; [intros r0 N; now rewrite lookup_insert_ne|].
    split.
    + intros r0 ps -> E.
      assert (r0 <> r) as N by congruence.
      split; [exact N|]. rewrite lookup_insert_eq. unfold for_in.
      rewrite lookup_insert_ne, E by congruence.
      now rewrite entries_of_map.
    + intros writes r0 N. rewrite assign_all_other by exact N.
      now rewrite lookup_insert_ne.
Qed.
End StoreProperties.

(** ** Both wrappers round-trip through [config] *)

Section Roundtrip.
Context {Handle : Type}.
Context `{FeatureCollaborators Handle} `{StyleCollaborators Handle}.

(** C1.  Where the nested wrappers (fields, expressions, fills, strokes)
    obey the round-trip law, so do [Schema] and [Shape]: for a
    configuration from which the wrapper is constructed and whose [config]
    can be read, a second wrapper is constructed from that [config], and
    its [config] is the same value.  A schema configuration is taken to
    have a string for a name when it has one. *)
Theorem config_roundtrip :
  Field_roundtrip ->
  roundtrip Expression_constructor Expression_config ->
  roundtrip Fill_constructor Fill_config ->
  roundtrip Stroke_constructor Stroke_config ->
  (forall (config : value Handle) t this t' c,
      name_is_string config ->
      Schema_constructor config t = (OK this, t') ->
      Schema_config this = OK c ->
      exists this' t'',
        Schema_constructor c t' = (OK this', t'') /\
        Schema_config this' = OK c) /\
  (forall (config : value Handle) s0 s1 c s2,
      Shape_constructor config s0 = (OK tt, s1) ->
      Shape_config s1 = (OK c, s2) ->
      exists s3 s4,
        Shape_constructor c s2 = (OK tt, s3) /\
        Shape_config s3 = (OK c, s4)).
Proof.
  intros LF LE LFi LS. split.
  - intros config t this t' c V E Ec.
    now apply (Schema_config_roundtrip config t this t' c LF V E Ec).
  - intros config s0 s1 c s2 E Ec.
    now apply (Shape_config_roundtrip LE LFi LS config s0 s1 c s2 E Ec).
Qed.
End Roundtrip.

(** ** The two shorthand forms *)

(** C6, amended.  The schema's normaliser turns every array into a mapping
    whose [fields] entry is that array; the shape's constructor turns every
    string other than the empty one into a mapping whose [name] entry is
    that string. *)
Theorem normalisation_shorthands (Handle : Type) :
  (forall fields : list (value Handle),
      prepConfig (VArray fields) = VObject [("fields", VArray fields)]) /\
  (forall s : string,
      s <> "" ->
      Shape_constructor_config (VStr s : value Handle)
      = VObject [("name", VStr s)]).
Proof.
  split; [reflexivity|].
  intros s N. unfold Shape_constructor_config. simpl.
  destruct (String.eqb_spec s "") as [E|_]; [contradiction | reflexivity].
Qed.

(** ** The properties on the reference collaborators *)

Lemma reference_Field_roundtrip : Field_roundtrip (Handle := Reference.handle).
Proof.
  intros h. destruct h as [name type [id|]| | | |];
    eexists; (split; reflexivity).
Qed.

Lemma reference_Expression_roundtrip :
  roundtrip Reference.new_Expression Reference.expression_config.
Proof.
  intros h. split; [destruct h; eexists; reflexivity|].
  destruct h; eexists; (split; reflexivity).
Qed.

Lemma reference_paint_roundtrip (type : string) :
  roundtrip Reference.paint_constructor (Reference.paint_config type).
Proof.
  intros h. split; [destruct h; eexists; reflexivity|].
  destruct h; eexists; (split; reflexivity).
Qed.

Lemma config_roundtrip_witness :
  (exists this' t'',
      Schema_constructor Reference.feature_config Reference.feature_trace
      = (OK this', t'') /\
      Schema_config this' = OK Reference.feature_config) /\
  (exists s3 s4,
      Shape_constructor Reference.star_config Reference.star = (OK tt, s3) /\
      Shape_config s3 = (OK Reference.star_config, s4)).
Proof.
  destruct (@config_roundtrip Reference.handle Reference.features
              Reference.style reference_Field_roundtrip
              reference_Expression_roundtrip
              (reference_paint_roundtrip "Fill")
              (reference_paint_roundtrip "Stroke")) as [schema shape].
  split.
  - apply (schema (VArray [Reference.the_geom; Reference.name_field]) []
                  Reference.feature_schema).
    + left. reflexivity.
    + reflexivity.
    + reflexivity.
  - apply (shape (VStr "star") Reference.empty_state Reference.star).
    + vm_compute. reflexivity.
    + vm_compute. reflexivity.
Defined.

(** C2, at a failing input.  A schema with the fields a, b, c is cloned
    with the overrides b' (named b) and a field named "constructor", a name
    no existing field has.  The clone has the fields a, b', c: the new
    field is not appended, because [in] finds its name among the members
    the marker object inherits. *)
Theorem Schema_clone_drops_inherited_name :
  exists clone t,
    Schema_clone Reference.abc
      (VObject [("fields",
                 VArray [Reference.field_b'; Reference.field_constructor])]) []
    = (OK clone, t) /\
    Schema_fields clone
    = OK [Reference.descriptor "a" "String" None;
          Reference.descriptor "b" "Integer" None;
          Reference.descriptor "c" "String" None].
Proof. eexists _, _. split; [vm_compute; reflexivity | reflexivity]. Qed.

(** With an override of an ordinary new name the merge is the documented
    one: a, b', c, d. *)
Example Schema_clone_merges_abc :
  exists clone t,
    Schema_clone Reference.abc
      (VObject [("fields", VArray [Reference.field_b'; Reference.field_d])]) []
    = (OK clone, t) /\
    Schema_fields clone
    = OK [Reference.descriptor "a" "String" None;
          Reference.descriptor "b" "Integer" None;
          Reference.descriptor "c" "String" None;
          Reference.descriptor "d" "Double" None].
Proof. eexists _, _. split; [vm_compute; reflexivity | reflexivity]. Qed.

Lemma create_first_match_witness :
  create prepConfig Reference.construct_named Reference.cities
         [Reference.nothing; Reference.schemas; Reference.anything]
  = (OK "Schema",
     [Reference.nothing; Reference.schemas; Reference.anything]).
Proof.
  apply (create_first_match prepConfig Reference.construct_named
           [Reference.nothing] [Reference.anything] Reference.schemas
           Reference.cities [Reference.the_geom; VStr "star"]
           [Reference.nothing; Reference.schemas; Reference.anything]).
  - reflexivity.
  - reflexivity.
  - reflexivity.
  - intros e Hin. apply list_elem_of_singleton in Hin. subst e. reflexivity.
Defined.

(** C4, the counterexample.  The empty string normalises to a mapping
    without [fields], yet the constructor returns the shell and throws
    nothing. *)
Lemma Schema_constructor_empty_string :
  truthy (member (prepConfig (VStr "" : value Reference.handle)) "fields")
  = false /\
  Schema_constructor (VStr "" : value Reference.handle) []
  = (OK {| _schema := None |}, []).
Proof. split; reflexivity. Qed.

Lemma Schema_constructor_fails_fast_witness :
  Schema_constructor (VObject [("name", VStr "cities")] : value Reference.handle)
                     Reference.feature_trace
  = (Throw (Error "Construct schema with a fields array."),
     Reference.feature_trace) /\
  Schema_constructor
    (VObject [("fields", VNum 3)] : value Reference.handle) []
  = (Throw (Error "Construct schema with a fields array."), []).
Proof.
  split.
  - apply Schema_constructor_fails_fast; [reflexivity | left; reflexivity].
  - apply Schema_constructor_fails_fast; [reflexivity | right; reflexivity].
Defined.

Lemma Shape_opacity_range_witness :
  Shape_set_opacity (VNum 1.5) Reference.empty_state
  = (Throw (Error "Opacity must be a number between 0 and 1 (inclusive)"),
     Reference.empty_state) /\
  exists s' s'',
    Shape_set_opacity (VNum 0.5) Reference.empty_state = (OK tt, s') /\
    Shape_get_opacity s' = (OK (Reference.literal 0.5), s'').
Proof.
  destruct (Shape_opacity_range (Handle := Reference.handle)) as [out within].
  split.
  - apply out. right. reflexivity.
  - apply within; [eexists; reflexivity | right; left; reflexivity].
Defined.

(** C6, the counterexample.  The shape's constructor leaves the empty
    string as it is: the result is a string, not a mapping with a [name]. *)
Lemma Shape_constructor_config_empty_string :
  Shape_constructor_config (VStr "" : value Reference.handle) = VStr "" /\
  typeof (Shape_constructor_config (VStr "" : value Reference.handle))
  = "string".
Proof. split; reflexivity. Qed.

Lemma normalisation_shorthands_witness :
  prepConfig (VArray [Reference.the_geom; Reference.name_field])
  = VObject [("fields", VArray [Reference.the_geom; Reference.name_field])] /\
  Shape_constructor_config (VStr "star" : value Reference.handle)
  = VObject [("name", VStr "star")].
Proof.
  destruct (normalisation_shorthands Reference.handle) as [arrays strings].
  split; [apply arrays | apply strings; discriminate].
Defined.

Lemma prepConfig_fresh_copy_witness :
  exists r h',
    Store.prepConfig (Store.Ref 0) Reference.one_object
    = (OK (Store.Ref r), h') /\
    0 <> r /\
    h' !! r = Reference.one_object !! 0 /\
    h' !! 0 = Reference.one_object !! 0 /\
    Store.assign_all r [("name", Store.Str "towns")] h' !! 0
    = Reference.one_object !! 0.
Proof.
  destruct (StoreProperties.prepConfig_fresh_copy (Store.Ref 0)
              Reference.one_object)
    as (r & h' & E & _ & frame & copy & writes).
  destruct (copy 0 {[ "name" := Store.Str "cities" ]} eq_refl eq_refl)
    as [N C].
  exists r, h'. split; [exact E|]. split; [exact N|].
  split; [rewrite C; reflexivity|].
  split; [apply frame, N | apply writes, N].
Defined.

Lemma Shape_symbolizer_memoized_witness :
  exists r s1,
    get__symbolizer Reference.empty_state = (OK (Some r), s1) /\
    get__symbolizer
      (perform_all [set_opacity (VNum 0.5); get_config; call_clone] s1)
    = (OK (Some r),
       perform_all [set_opacity (VNum 0.5); get_config; call_clone] s1).
Proof.
  destruct (Shape_symbolizer_memoized Reference.empty_state)
    as (r & s1 & E & _ & _ & later).
  exists r, s1. split; [exact E | apply later].
Defined.

Lemma Schema_name_default_witness :
  Schema_name Reference.feature_schema = OK "feature".
Proof.
  apply (Schema_name_default
           (VArray [Reference.the_geom; Reference.name_field]) []
           Reference.feature_schema Reference.feature_trace);
    reflexivity.
Defined.

Lemma Schema_get_first_witness :
  Schema_get Reference.feature_schema (VStr "name")
  = OK (VInstance Field (Reference.descriptor "name" "String" None)) /\
  Schema_get Reference.feature_schema (VStr "population") = OK VUndefined.
Proof.
  split.
  - apply (proj1 (Schema_get_first Reference.feature_schema _ "name" eq_refl)
             [Reference.descriptor "the_geom" "Point" (Some "EPSG:4326")]
             (Reference.descriptor "name" "String" None) []);
      [reflexivity | reflexivity |].
    intros h Hin. apply list_elem_of_singleton in Hin. subst h. discriminate.
  - apply (proj2 (Schema_get_first Reference.feature_schema _ "population"
                    eq_refl)).
    intros h Hin.
    apply elem_of_cons in Hin as [-> | Hin]; [discriminate|].
    apply list_elem_of_singleton in Hin. subst h. discriminate.
Defined.

(** The sample of the module's documentation: two fields, the geometry
    first; [get("the_geom").type] is "Point" and the second entry of
    [config.fields] is named "name". *)
Example cities_sample :
  exists this t fields,
    Schema_constructor Reference.cities [] = (OK this, t) /\
    Schema_name this = OK "cities" /\
    result_map (fun fs => length fs) (Schema_fields this) = OK 2 /\
    result_map (fun f => member f "type") (Schema_get this (VStr "the_geom"))
    = OK (VStr "Point") /\
    result_map (fun c => member c "fields") (Schema_config this)
    = OK (VArray fields) /\
    (fun f => member f "name") <$> fields !! 1 = Some (VStr "name").
Proof.
  eexists _, _, _. split; [vm_compute; reflexivity|].
  repeat split; reflexivity.
Qed.

(** NaN is a number that is neither below 0 nor above 1: the setter lets
    it through. *)
Example Shape_opacity_nan :
  exists s',
    Shape_set_opacity (VNum nan) Reference.empty_state = (OK tt, s').
Proof. eexists. vm_compute. reflexivity. Qed.

(** * Further properties of the schema module *)

Section FeatureExtras.
Context {Handle : Type} `{FeatureCollaborators Handle}.
Local Abbreviation value := (value Handle).
Implicit Types (config : value) (t : trace (Handle := Handle)).
Implicit Types (builder : SimpleFeatureTypeBuilder (Handle := Handle)).

(** *** What a construction does, call by call *)

Lemma as_Fields_Forall2 (fields : list value) : forall hs,
  as_Fields fields = OK hs <->
  Forall2 (fun f h => as_Field f = OK h) fields hs.
Proof.
  induction fields as [|f rest IH]; intros hs; simpl.
  - split; [intros [= <-]; constructor | inversion 1; reflexivity].
  - split.
    + destruct (as_Field f) as [h|e] eqn:Ef; [|discriminate].
      destruct (as_Fields rest) as [hs'|e] eqn:Er; [|discriminate].
      intros [= <-]. constructor; [exact Ef | now apply IH].
    + inversion 1 as [|? h ? hs' Ef Er]; subst. rewrite Ef.
      apply IH in Er. now rewrite Er.
Qed.

Lemma add_field_exact builder (f : value) t h :
  as_Field f = OK h ->
  exists builder',
    add_field builder f t = (OK builder', t ++ calls_of h) /\
    b_name builder' = b_name builder /\
    b_attributes builder' = b_attributes builder ++ [h].
Proof.
  intros E. unfold add_field, calls_of. rewrite E.
  unfold bind at 1, lift at 1.
  destruct (GEOM (Field_type h)); [destruct (Field_projection h)|];
    cbv [builder_setCRS builder_add record modify bind ret]; simpl;
    rewrite <- ?app_assoc; eexists; (split; [reflexivity|]); simpl; auto.
Qed.

Lemma add_fields_exact (fields : list value) : forall builder t hs,
  as_Fields fields = OK hs ->
  exists builder',
    add_fields builder fields t
    = (OK builder', t ++ concat (map calls_of hs)) /\
    b_name builder' = b_name builder /\
    b_attributes builder' = b_attributes builder ++ hs.
Proof.
  induction fields as [|f rest IH]; simpl; intros builder t hs E.
  - injection E as <-. exists builder. simpl. now rewrite !app_nil_r.
  - destruct (as_Field f) as [h|e] eqn:Eh; [|discriminate].
    destruct (as_Fields rest) as [hs'|e] eqn:Ehs; [|discriminate].
    injection E as <-.
    destruct (add_field_exact builder f t h Eh) as (b1 & E1 & N1 & A1).
    destruct (IH b1 (t ++ calls_of h) hs' eq_refl) as (b2 & E2 & N2 & A2).
    exists b2. rewrite (bind_step _ _ _ _ _ E1), E2. simpl.
    rewrite <- !app_assoc. split; [reflexivity|]. split; [congruence|].
    rewrite A2, A1, <- app_assoc. reflexivity.
Qed.

Lemma add_fields_throw (good : list value) : forall builder t hs bad rest e,
  as_Fields good = OK hs ->
  as_Field bad = Throw e ->
  add_fields builder (good ++ bad :: rest) t
  = (Throw e, t ++ concat (map calls_of hs)).
Proof.
  induction good as [|f good IH]; simpl; intros builder t hs bad rest e E Eb.
  - injection E as <-. unfold bind, add_field, bind, lift. rewrite Eb.
    simpl. now rewrite app_nil_r.
  - destruct (as_Field f) as [h|e'] eqn:Eh; [|discriminate].
    destruct (as_Fields good) as [hs'|e'] eqn:Ehs; [|discriminate].
    injection E as <-.
    destruct (add_field_exact builder f t h Eh) as (b1 & E1 & _).
    rewrite (bind_step _ _ _ _ _ E1).
    rewrite (IH b1 _ hs' bad rest e eq_refl Eb). simpl.
    now rewrite <- app_assoc.
Qed.

(** The guard passes and the builder is made and named; what follows is
    the run of [forEach]. *)
Lemma Schema_constructor_array config t (fields : list value) :
  truthy config = true ->
  member (prepConfig config) "fields" = VArray fields ->
  Schema_constructor config t
  = bind (add_fields
            {| b_name := NameImpl (js_or (member (prepConfig config) "name")
                                         (VStr "feature"));
               b_crs := None; b_attributes := [] |}
            fields)
         (fun builder =>
            bind (builder_buildFeatureType builder)
                 (fun ft => ret {| _schema := Some ft |}))
         (t ++ [new_SimpleFeatureTypeBuilder;
                setName (NameImpl (js_or (member (prepConfig config) "name")
                                         (VStr "feature")))]).
Proof.
  intros T F. unfold Schema_constructor. rewrite T, F.
  cbn [truthy has_forEach negb orb].
  cbv [builder_new builder_setName record modify ret bind].
  cbn [b_crs b_attributes]. now rewrite <- app_assoc.
Qed.

(** X1.  A schema built from a configuration has one field per element of
    its [fields] array, in the order of the array: an element that is a
    [Field] gives its own descriptor, any other element the descriptor of
    the [Field] constructed from it; [fieldNames] are their names. *)
Theorem Schema_constructor_fields config t this t' (fields : list value) :
  truthy config = true ->
  member (prepConfig config) "fields" = VArray fields ->
  Schema_constructor config t = (OK this, t') ->
  exists hs,
    Forall2 (fun f h => as_Field f = OK h) fields hs /\
    Schema_fields this = OK hs /\
    Schema_fieldNames this = OK (map Field_name hs).
Proof.
  intros T F E.
  apply Schema_constructor_OK in E as (fields' & hs & F' & Ehs & _ & Ef);
    [|exact T].
  rewrite F in F'. injection F' as <-.
  exists hs. split; [now apply as_Fields_Forall2|]. split; [exact Ef|].
  unfold Schema_fields, Schema_fieldNames in *.
  destruct (the_schema this) as [ft|e]; [|discriminate].
  simpl in *. injection Ef as ->. reflexivity.
Qed.

(** X2.  The calls a successful construction makes on the engine are
    exactly: the builder is made, then named; then, field by field in
    order, [setCRS] when the field's type is a geometry and it has a
    projection, and [add]; then [buildFeatureType], once and last. *)
Theorem Schema_constructor_trace config t this t' :
  truthy config = true ->
  Schema_constructor config t = (OK this, t') ->
  exists name hs,
    Schema_name this = OK name /\
    Schema_fields this = OK hs /\
    t' = t ++ [new_SimpleFeatureTypeBuilder; setName name]
           ++ concat (map calls_of hs) ++ [buildFeatureType].
Proof.
  intros T E. pose proof E as E0.
  apply Schema_constructor_OK in E0 as (fields & hs & F & Ehs & En & Ef);
    [|exact T].
  eexists _, hs. split; [exact En|]. split; [exact Ef|].
  rewrite (Schema_constructor_array config t fields T F) in E.
  destruct (add_fields_exact fields
              {| b_name := NameImpl (js_or (member (prepConfig config) "name")
                                           (VStr "feature"));
                 b_crs := None; b_attributes := [] |}
              (t ++ [new_SimpleFeatureTypeBuilder;
                     setName (NameImpl (js_or (member (prepConfig config) "name")
                                              (VStr "feature")))])
              hs Ehs) as (b' & E' & _).
  rewrite (bind_step _ _ _ _ _ E') in E.
  cbv [builder_buildFeatureType record modify ret bind] in E.
  injection E as _ <-. now rewrite <- !app_assoc.
Qed.

(** X3.  Field definitions are not validated before the engine is used:
    when an element of [fields] is rejected by the [Field] constructor,
    the schema constructor throws that same error, after the builder has
    been made and named and the fields before it have been added. *)
Theorem Schema_constructor_field_error config t
    (good : list value) (bad : value) (rest : list value) hs e :
  truthy config = true ->
  member (prepConfig config) "fields" = VArray (good ++ bad :: rest) ->
  as_Fields good = OK hs ->
  as_Field bad = Throw e ->
  Schema_constructor config t
  = (Throw e,
     t ++ [new_SimpleFeatureTypeBuilder;
           setName (NameImpl (js_or (member (prepConfig config) "name")
                                    (VStr "feature")))]
       ++ concat (map calls_of hs)).
Proof.
  intros T F Eg Eb.
  rewrite (Schema_constructor_array config t _ T F).
  unfold bind at 1.
  rewrite (add_fields_throw good _ _ hs bad rest e Eg Eb).
  now rewrite <- app_assoc.
Qed.

(** X4.  A name given as a string is the name of the schema, except the
    empty string, for which the schema is named "feature". *)
Theorem Schema_name_of_string config t this t' n :
  truthy config = true ->
  member (prepConfig config) "name" = VStr n ->
  Schema_constructor config t = (OK this, t') ->
  Schema_name this = OK (if String.eqb n "" then "feature" else n).
Proof.
  intros T N E.
  apply Schema_constructor_OK in E as (fields & hs & _ & _ & En & _);
    [|exact T].
  rewrite N in En. unfold js_or in En. simpl in En.
  now destruct (String.eqb n "").
Qed.

(** *** The factory predicate and the constructor *)


(** X6.  The [config] of a schema is a present configuration that the
    schema's own factory predicate handles, with the discriminator
    "Schema". *)
Theorem Schema_config_handled (this : Schema) c :
  Schema_config this = OK c ->
  truthy c = true /\
  Schema_handles c = true /\
  member c "type" = VStr "Schema".
Proof.
  unfold Schema_config.
  destruct (Schema_name this) as [n|e]; [|discriminate].
  destruct (Schema_fields this) as [hs|e]; [|discriminate].
  intros [= <-]. repeat split.
Qed.

(** *** [clone] *)

Lemma as_Fields_instances (hs : list Handle) :
  as_Fields (map (VInstance Field) hs) = OK hs.
Proof. induction hs as [|h hs IH]; simpl; [reflexivity | now rewrite IH]. Qed.


(** X8.  [clone()] without a configuration is a copy: the same
    descriptors in the same order, under the same name.  Only a schema
    whose name is the empty string is not copied by name: its clone is
    named "feature". *)
Theorem Schema_clone_copy (this : Schema) (hs : list Handle) n0 config t :
  Schema_fields this = OK hs ->
  Schema_name this = OK n0 ->
  truthy config = false ->
  exists clone t',
    Schema_clone this config t = (OK clone, t') /\
    Schema_fields clone = OK hs /\
    Schema_name clone = OK (if String.eqb n0 "" then "feature" else n0).
Proof.
  intros F N T.
  assert (Schema_clone this config t
          = Schema_constructor
              (VObject [("name", VStr n0);
                        ("fields", VArray (map (VInstance Field) hs))]) t)
    as ->.
  { rewrite (Schema_clone_spec this config hs n0 [] t F N).
    - unfold js_or, js_and. rewrite T, T. unfold clone_fields. simpl.
      now rewrite app_nil_r.
    - unfold js_or, js_and. now rewrite T, T.
    - reflexivity. }
  set (c := VObject [("name", VStr n0);
                     ("fields", VArray (map (VInstance Field) hs))]).
  rewrite (Schema_constructor_array c t (map (VInstance Field) hs) eq_refl
             eq_refl).
  destruct (add_fields_exact (map (VInstance Field) hs)
              {| b_name := NameImpl (js_or (member (prepConfig c) "name")
                                           (VStr "feature"));
                 b_crs := None; b_attributes := [] |}
              (t ++ [new_SimpleFeatureTypeBuilder;
                     setName (NameImpl (js_or (member (prepConfig c) "name")
                                              (VStr "feature")))])
              hs (as_Fields_instances hs)) as (b' & E' & N' & A').
  rewrite (bind_step _ _ _ _ _ E').
  cbv [builder_buildFeatureType record modify ret bind].
  eexists _, _. split; [reflexivity|].
  unfold Schema_fields, Schema_name. simpl. rewrite N', A'. simpl.
  split; [reflexivity|]. unfold js_or. simpl.
  now destruct (String.eqb n0 "").
Qed.

Lemma find_configField_TypeError n (os : list value) e :
  find_configField n os = Throw e -> e = TypeError.
Proof.
  induction os as [|o os IH]; simpl; [discriminate|].
  destruct o; simpl; try (intros [= <-]; reflexivity);
    first [ exact IH
          | match goal with
            | |- context [if ?b then _ else _] =>
                destruct b; [discriminate | exact IH]
            end ].
Qed.

Lemma replace_existing_TypeError (os : list value) (hs : list Handle) :
  forall acc ex e,
    replace_existing hs os acc ex = Throw e -> e = TypeError.
Proof.
  induction hs as [|h hs IH]; simpl; intros acc ex e; [discriminate|].
  destruct (find_configField (Field_name h) os) as [[o|]|e'] eqn:E.
  - apply IH.
  - apply IH.
  - intros [= <-]. exact (find_configField_TypeError _ os _ E).
Qed.

Lemma add_new_undefined (os : list value) :
  (exists o, o ∈ os /\ defined o = false) ->
  forall ex acc, add_new os ex acc = Throw TypeError.
Proof.
  induction os as [|o os IH]; intros (o' & Hin & D) ex acc; simpl.
  - inversion Hin.
  - destruct (defined o) eqn:Do.
    + assert (member_of o "name" = OK (member o "name")) as ->
        by (destruct o; try discriminate; reflexivity).
      assert (exists o, o ∈ os /\ defined o = false) as Hrest.
      { inversion Hin; subst; [congruence | eauto]. }
      destruct (negb _); now apply IH.
    + destruct o; try discriminate; reflexivity.
Qed.

(** X9.  An override array that holds an [undefined] or [null] element
    makes [clone] throw a [TypeError], whatever the other elements are,
    and no call on the engine is made. *)
Theorem Schema_clone_undefined_element (this : Schema) (hs : list Handle)
    config (os : list value) t :
  Schema_fields this = OK hs ->
  js_or (js_and config (member config "fields")) (VArray []) = VArray os ->
  (exists o, o ∈ os /\ defined o = false) ->
  Schema_clone this config t = (Throw TypeError, t).
Proof.
  intros F C Hos. unfold Schema_clone. rewrite C, F.
  unfold bind at 1, lift at 1.
  destruct (replace_existing hs os [] []) as [[acc ex]|e] eqn:E.
  - unfold bind at 1, lift at 1. simpl.
    rewrite (add_new_undefined os Hos). reflexivity.
  - apply replace_existing_TypeError in E. subst e. reflexivity.
Qed.

(** *** [get] and [fieldNames] *)

Lemma get_loop_names (hs : list Handle) n :
  ((n ∉ map Field_name hs) /\ get_loop hs (VStr n) = VUndefined) \/
  (exists h, h ∈ hs /\ Field_name h = n /\
             get_loop hs (VStr n) = VInstance Field h).
Proof.
  induction hs as [|h hs IH]; simpl.
  - left. split; [inversion 1 | reflexivity].
  - destruct (String.eqb_spec (Field_name h) n) as [E|N].
    + right. exists h. split; [left|]. auto.
    + destruct IH as [[Hn Eg]|(h' & Hin & En & Eg)].
      * left. split; [|exact Eg]. intros Hin.
        inversion Hin; subst; [congruence | contradiction].
      * right. exists h'. split; [now right|]. auto.
Qed.

Lemma get_loop_not_string (hs : list Handle) (w : value) :
  (forall s, w <> VStr s) -> get_loop hs w = VUndefined.
Proof.
  intros Hw. induction hs as [|h hs IH]; simpl; [reflexivity|].
  destruct w; try exact IH. now destruct (Hw s).
Qed.

(** X10.  On a schema that has its feature type, [get(name)] never throws;
    for a string it returns a field exactly when the string is among
    [fieldNames], and that field has this name; for an argument that is
    not a string it returns [undefined]. *)
Theorem Schema_get_fieldNames (this : Schema) (names : list string) :
  Schema_fieldNames this = OK names ->
  (forall n, exists v,
      Schema_get this (VStr n) = OK v /\
      (n ∈ names -> exists h, v = VInstance Field h /\ Field_name h = n) /\
      (n ∉ names -> v = VUndefined)) /\
  (forall w, (forall s, w <> VStr s) -> Schema_get this w = OK VUndefined).
Proof.
  unfold Schema_fieldNames, Schema_get, Schema_fields.
  destruct (the_schema this) as [ft|e]; [|discriminate]. simpl.
  intros [= <-]. split.
  - intros n. eexists. split; [reflexivity|].
    destruct (get_loop_names (getAttributeDescriptors ft) n)
      as [[Hn Eg]|(h & Hin & En & Eg)]; rewrite Eg.
    + split; [contradiction | reflexivity].
    + split; [eauto|]. intros Hn. exfalso. apply Hn.
      apply list_elem_of_fmap. eauto.
  - intros w Hw. now rewrite get_loop_not_string.
Qed.

(** *** The shell *)

(** X11.  From an absent (falsy) configuration the constructor makes the
    shell, without a call on the engine; every accessor of the shell, and
    [get] and [clone], throw a [TypeError], and [clone] makes no call on
    the engine either. *)
Theorem Schema_shell config t :
  truthy config = false ->
  exists shell,
    Schema_constructor config t = (OK shell, t) /\
    Schema_name shell = Throw TypeError /\
    Schema_fields shell = Throw TypeError /\
    Schema_fieldNames shell = Throw TypeError /\
    Schema_config shell = Throw TypeError /\
    (forall w, Schema_get shell w = Throw TypeError) /\
    (forall c t', Schema_clone shell c t' = (Throw TypeError, t')).
Proof.
  intros T. exists {| _schema := None |}. unfold Schema_constructor.
  rewrite T. repeat split.
Qed.

(** *** Normalisation twice *)

Lemma own_None k (ps : list (string * value)) :
  k ∉ ps.*1 -> own k ps = None.
Proof.
  induction ps as [|[k' v] ps IH]; simpl; intros N; [reflexivity|].
  destruct (String.eqb_spec k' k) as [->|_].
  - exfalso. apply N. left.
  - apply IH. intros Hin. apply N. now right.
Qed.

Lemma set_prop_new k (v : value) ps :
  own k ps = None -> set_prop k v ps = ps ++ [(k, v)].
Proof.
  induction ps as [|[k' v'] ps IH]; simpl; [reflexivity|].
  destruct (String.eqb k' k); [discriminate|].
  intros E. now rewrite IH.
Qed.

Lemma set_prop_keys k (v : value) ps :
  (set_prop k v ps).*1
  = match own k ps with Some _ => ps.*1 | None => ps.*1 ++ [k] end.
Proof.
  induction ps as [|[k' v'] ps IH]; [reflexivity|].
  cbn [set_prop own].
  destruct (String.eqb_spec k' k) as [->|N]; [reflexivity|].
  rewrite !fmap_cons, IH. now destruct (own k ps).
Qed.

Lemma own_Some_key k (ps : list (string * value)) v :
  own k ps = Some v -> k ∈ ps.*1.
Proof.
  induction ps as [|[k' v'] ps IH]; simpl; [discriminate|].
  destruct (String.eqb_spec k' k) as [->|_]; [left | right; auto].
Qed.

Lemma set_prop_NoDup k (v : value) ps :
  NoDup (ps.*1) -> NoDup ((set_prop k v ps).*1).
Proof.
  intros N. rewrite set_prop_keys. destruct (own k ps) eqn:E; [exact N|].
  apply NoDup_app. split; [exact N|]. split; [|apply NoDup_singleton].
  intros x Hx Hk. apply list_elem_of_singleton in Hk. subst x.
  induction ps as [|[k' v'] ps IH]; simpl in *; [inversion Hx|].
  destruct (String.eqb_spec k' k) as [->|Nk]; [discriminate|].
  inversion Hx; subst; [congruence|].
  apply IH; [now inversion N | exact E | assumption].
Qed.

Lemma apply_NoDup (entries : list (string * value)) : forall target : list (string * value),
  NoDup (target.*1) ->
  NoDup ((fold_left (fun tgt kv => set_prop kv.1 kv.2 tgt) entries target).*1).
Proof.
  induction entries as [|kv rest IH]; simpl; intros target N; [exact N|].
  apply IH. now apply set_prop_NoDup.
Qed.

Lemma apply_distinct (entries : list (string * value)) : forall target : list (string * value),
  NoDup ((target ++ entries).*1) ->
  fold_left (fun tgt kv => set_prop kv.1 kv.2 tgt) entries target
  = target ++ entries.
Proof.
  induction entries as [|[k v] rest IH]; simpl; intros target N.
  - now rewrite app_nil_r.
  - rewrite set_prop_new.
    + rewrite IH; rewrite <- app_assoc; [reflexivity | exact N].
    + apply own_None. rewrite fmap_app in N. simpl in N.
      apply NoDup_app in N as (_ & D & _). intros Hin.
      apply (D k Hin). left.
Qed.

(** X12.  Normalising a configuration a second time changes nothing, and
    a mapping whose keys are distinct is normalised to a mapping with the
    same entries in the same order. *)
Theorem prepConfig_idempotent :
  (forall config, prepConfig (prepConfig config) = prepConfig config) /\
  (forall ps : list (string * value),
      NoDup (ps.*1) -> prepConfig (VObject ps) = VObject ps).
Proof.
  assert (forall ps : list (string * value),
             NoDup (ps.*1) -> prepConfig (VObject ps) = VObject ps) as Copy.
  { intros ps N. unfold prepConfig, apply. simpl.
    now rewrite (apply_distinct ps []). }
  split; [|exact Copy].
  intros config.
  assert (exists ps : list (string * value),
             prepConfig config = VObject ps /\ NoDup (ps.*1))
    as (ps & -> & N); [|now apply Copy].
  unfold prepConfig. destruct (instanceof_Array config).
  - eexists. split; [reflexivity|]. apply NoDup_singleton.
  - eexists. split; [reflexivity|]. unfold apply. apply apply_NoDup.
    constructor.
Qed.
End FeatureExtras.

Section FromValues.
Context {Handle : Type} `{FeatureCollaborators Handle}.
Variable Field_fromValue : string -> value Handle -> result Handle.

Lemma fromValue_all_OK (entries : list (string * value Handle)) :
  forall hs acc,
    Forall2 (fun kv h => Field_fromValue kv.1 kv.2 = OK h) entries hs ->
    fromValue_all Field_fromValue entries acc
    = OK (acc ++ map (VInstance Field) hs).
Proof.
  induction entries as [|[k v] rest IH]; intros hs acc F;
    inversion F as [|? h ? hs' E F']; subst; simpl.
  - now rewrite app_nil_r.
  - simpl in E. rewrite E, (IH hs' _ F'), <- app_assoc. reflexivity.
Qed.

(** X13.  [Schema.fromValues(values)] builds a schema named "feature"
    with one field per enumerable entry of [values], in the order of the
    enumeration, when [Field.fromValue] accepts every entry; from an
    object without entries, and from [undefined] or [null], it builds the
    schema without fields. *)
Theorem Schema_fromValues_fields (values : value Handle) t
    (hs : list Handle) :
  Forall2 (fun kv h => Field_fromValue kv.1 kv.2 = OK h) (for_in values) hs ->
  exists this t',
    Schema_fromValues Field_fromValue values t = (OK this, t') /\
    Schema_name this = OK "feature" /\
    Schema_fields this = OK hs.
Proof.
  intros F. unfold Schema_fromValues.
  unfold bind at 1, lift at 1.
  rewrite (fromValue_all_OK _ hs [] F). simpl app.
  set (c := VObject [("fields", VArray (map (VInstance Field) hs))]
            : value Handle).
  rewrite (Schema_constructor_array c t (map (VInstance Field) hs) eq_refl
             eq_refl).
  destruct (add_fields_exact (map (VInstance Field) hs)
              {| b_name := NameImpl (js_or (member (prepConfig c) "name")
                                           (VStr "feature"));
                 b_crs := None; b_attributes := [] |}
              (t ++ [new_SimpleFeatureTypeBuilder;
                     setName (NameImpl (js_or (member (prepConfig c) "name")
                                              (VStr "feature")))])
              hs (as_Fields_instances hs)) as (b' & E' & N' & A').
  rewrite (bind_step _ _ _ _ _ E').
  cbv [builder_buildFeatureType record modify ret bind].
  eexists _, _. split; [reflexivity|].
  unfold Schema_fields, Schema_name. simpl. rewrite N', A'. now simpl.
Qed.

(** X14.  [toFullString()] does not tell a schema without fields from a
    schema with a single field whose name is the empty string: both print
    an empty name between the brackets. *)
Theorem Schema_toFullString_no_fields (a b : Schema (Handle := Handle)) n :
  Schema_name a = OK n ->
  Schema_name b = OK n ->
  Schema_fieldNames a = OK [] ->
  Schema_fieldNames b = OK [""] ->
  Schema_toFullString a = Schema_toFullString b /\
  Schema_toFullString a
  = OK ("name: " +:+ quote +:+ n +:+ quote +:+ ", fields: ["
        +:+ quote +:+ quote +:+ "]").
Proof.
  intros Na Nb Fa Fb. unfold Schema_toFullString.
  rewrite Na, Nb, Fa, Fb. simpl. split; reflexivity.
Qed.
End FromValues.

(** * Further properties of the shape *)

Section StyleExtras.
Context {Handle : Type} `{StyleCollaborators Handle}.
Local Abbreviation value := (value Handle).
Implicit Types (s : state (Handle := Handle)).
Implicit Types (p : PointSymbolizer (Handle := Handle)).

(** *** Assignments *)

Lemma lift_setter_OK (e : result Handle)
    (set : Handle -> PointSymbolizer -> PointSymbolizer) s p s' :
  view s = Some p ->
  bind (lift e) (fun h => setter (set h)) s = (OK tt, s') ->
  exists h, e = OK h /\ view s' = Some (set h p).
Proof.
  intros V E. apply bind_OK in E as (h & s1 & E1 & E).
  apply lift_OK in E1 as [-> ->].
  destruct (setter_view (set h) s p V) as (s'' & E' & V').
  rewrite E' in E. injection E as <-. eauto.
Qed.

Lemma lift_setter_Throw (e : result Handle)
    (set : Handle -> PointSymbolizer -> PointSymbolizer) s err s' :
  well_formed s ->
  bind (lift e) (fun h => setter (set h)) s = (Throw err, s') ->
  e = Throw err /\ s' = s.
Proof.
  intros [p V]. unfold bind at 1, lift. destruct e as [h|err'].
  - destruct (setter_view (set h) s p V) as (s'' & E' & _).
    rewrite E'. discriminate.
  - intros [= <- <-]. auto.
Qed.

(** X15.  An assignment to a property that returns normally changes that
    property's slot of the symbolizer, and leaves the other five slots as
    they were. *)
Theorem Shape_assignment_one_slot (v : value) s p s' :
  view s = Some p ->
  (Shape_set_name v s = (OK tt, s') ->
   exists h, view s' = Some (setWellKnownName h p)) /\
  (Shape_set_size v s = (OK tt, s') ->
   exists h, view s' = Some (setSize h p)) /\
  (Shape_set_opacity v s = (OK tt, s') ->
   exists h, view s' = Some (setOpacity h p)) /\
  (Shape_set_rotation v s = (OK tt, s') ->
   exists h, view s' = Some (setRotation h p)) /\
  (Shape_set_fill v s = (OK tt, s') ->
   exists h, view s' = Some (setFill h p)) /\
  (Shape_set_stroke v s = (OK tt, s') ->
   exists h, view s' = Some (setStroke h p)).
Proof.
  intros V.
  unfold Shape_set_name, Shape_set_size, Shape_set_opacity,
    Shape_set_rotation, Shape_set_fill, Shape_set_stroke.
  repeat split; intros E;
    destruct (lift_setter_OK _ _ s p s' V E) as (h & _ & V'); eauto.
Qed.

(** X16.  On a well-formed shape an assignment that throws changes
    nothing: the cache and every symbolizer of the engine are as they were,
    and no symbolizer has been made. *)
Theorem Shape_assignment_rejected (v : value) s e s' :
  well_formed s ->
  (Shape_set_name v s = (Throw e, s') -> s' = s) /\
  (Shape_set_size v s = (Throw e, s') -> s' = s) /\
  (Shape_set_opacity v s = (Throw e, s') -> s' = s) /\
  (Shape_set_rotation v s = (Throw e, s') -> s' = s) /\
  (Shape_set_fill v s = (Throw e, s') -> s' = s) /\
  (Shape_set_stroke v s = (Throw e, s') -> s' = s).
Proof.
  intros W.
  unfold Shape_set_name, Shape_set_size, Shape_set_opacity,
    Shape_set_rotation, Shape_set_fill, Shape_set_stroke.
  repeat split; intros E;
    now destruct (lift_setter_Throw _ _ s e s' W E).
Qed.

(** X17.  A value that is neither a number nor an object (a string, a
    boolean, [undefined]) is rejected by the setters of [opacity] and of
    [rotation] with a message that ends in its [typeof]; the state is as
    it was. *)
Theorem Shape_opacity_rotation_type (v : value) s :
  typeof v <> "number" ->
  typeof v <> "object" ->
  Shape_set_opacity v s
  = (Throw (Error ("Shape opacity cannot be type: " +:+ typeof v)), s) /\
  Shape_set_rotation v s
  = (Throw (Error ("Shape rotation cannot be type: " +:+ typeof v)), s).
Proof.
  intros Nn No. destruct v; try (now destruct Nn); try (now destruct No);
    split; reflexivity.
Qed.

(** X18.  [rotation] has no range: on a well-formed shape every number,
    negative ones and NaN included, is accepted and is then the rotation,
    as a literal. *)
Theorem Shape_rotation_any_number (x : float) s :
  well_formed s ->
  exists s' s'',
    Shape_set_rotation (VNum x) s = (OK tt, s') /\
    Shape_get_rotation s' = (OK (Expression_literal (VNum x)), s'').
Proof.
  intros [p V]. unfold Shape_set_rotation. unfold bind at 1, lift at 1.
  destruct (setter_view (setRotation (Expression_literal (VNum x))) s p V)
    as (s' & E & V').
  destruct (getter_view rotation s' _ V') as (s'' & G & _).
  exists s', s''. split; [exact E | exact G].
Qed.

(** X19.  On a well-formed shape the setter of [opacity] accepts a number
    exactly when it is neither below 0 nor above 1, as the comparisons of
    doubles decide it; so NaN, for which both comparisons fail, is
    accepted. *)
Theorem Shape_opacity_number (x : float) s :
  well_formed s ->
  (exists s', Shape_set_opacity (VNum x) s = (OK tt, s')) <->
  PrimFloat.ltb x 0 = false /\ PrimFloat.ltb 1 x = false.
Proof.
  intros [p V]. split.
  - intros [s' E]. unfold Shape_set_opacity in E.
    destruct (PrimFloat.ltb x 0); [discriminate|].
    destruct (PrimFloat.ltb 1 x); [discriminate|]. auto.
  - intros [L0 L1].
    destruct (Shape_set_opacity_in_range x s p V L0 L1) as (s' & E & _).
    eauto.
Qed.

(** X20.  A value that already is an instance of the wrapper a property
    holds is stored as it is, by the handle it owns, without a call of the
    wrapper's constructor: an [Expression] for name, size, opacity and
    rotation, a [Fill] for fill, a [Stroke] for stroke. *)
Theorem Shape_assignment_of_instance (h : Handle) s p :
  view s = Some p ->
  (exists s', Shape_set_name (VInstance Expression h) s = (OK tt, s') /\
              view s' = Some (setWellKnownName h p)) /\
  (exists s', Shape_set_size (VInstance Expression h) s = (OK tt, s') /\
              view s' = Some (setSize h p)) /\
  (exists s', Shape_set_opacity (VInstance Expression h) s = (OK tt, s') /\
              view s' = Some (setOpacity h p)) /\
  (exists s', Shape_set_rotation (VInstance Expression h) s = (OK tt, s') /\
              view s' = Some (setRotation h p)) /\
  (exists s', Shape_set_fill (VInstance Fill h) s = (OK tt, s') /\
              view s' = Some (setFill h p)) /\
  (exists s', Shape_set_stroke (VInstance Stroke h) s = (OK tt, s') /\
              view s' = Some (setStroke h p)).
Proof.
  intros V.
  unfold Shape_set_name, Shape_set_size, Shape_set_opacity,
    Shape_set_rotation, Shape_set_fill, Shape_set_stroke.
  repeat split; unfold bind at 1, lift at 1; simpl; now apply setter_view.
Qed.

(** X21.  When the [Expression] constructor rejects an object, the
    setters of name and size throw the constructor's own error, while
    those of opacity and rotation replace it by a message of their own;
    in all four cases the state is as it was. *)
Theorem Shape_expression_rejected (ps : list (string * value)) e s :
  Expression_constructor (VObject ps) = Throw e ->
  Shape_set_name (VObject ps) s = (Throw e, s) /\
  Shape_set_size (VObject ps) s = (Throw e, s) /\
  Shape_set_opacity (VObject ps) s
  = (Throw (Error "Shape opacity must be a number or an expression"), s) /\
  Shape_set_rotation (VObject ps) s
  = (Throw (Error "Shape rotation must be a number or an expression"), s).
Proof.
  intros E.
  unfold Shape_set_name, Shape_set_size, Shape_set_opacity,
    Shape_set_rotation, Expression_or.
  repeat split; unfold bind at 1, lift at 1; simpl; now rewrite E.
Qed.

(** *** Reading *)

(** X22.  Once [config] has been read, reading it again returns the same
    value and changes nothing. *)
Theorem Shape_config_stable s c s' :
  Shape_config s = (OK c, s') ->
  Shape_config s' = (OK c, s').
Proof.
  intros E. pose proof E as E0. unfold Shape_config in E0.
  apply bind_OK in E0 as (h & s1 & E1 & _).
  apply getter_OK in E1 as (p & V & _).
  destruct (Shape_config_cases s p V) as (s0 & E' & V' & r & C).
  rewrite E' in E. injection E as <- <-.
  pose proof (Shape_config_cached s0 r C) as K.
  destruct (Shape_config_view s0 p V') as (s2 & E2 & _).
  rewrite E2 in K. simpl in K. subst s2. exact E2.
Qed.


(** *** One symbolizer per shape *)

Lemma setter_same_objects (set : PointSymbolizer -> PointSymbolizer) s r :
  cache (this s) !! "_symbolizer" = Some r ->
  dom (symbolizers (setter set s).2) = dom (symbolizers s).
Proof.
  intros C. unfold setter.
  rewrite (bind_step _ _ _ _ _ (get__symbolizer_cached s r C)).
  destruct (symbolizers s !! r) as [p|] eqn:E; [|reflexivity].
  simpl. apply dom_insert_lookup_L. eauto.
Qed.

(** X25.  Once the handle is cached, a shape makes the engine create no
    further symbolizer and drops none: after any operation other than
    [clone], the engine holds symbolizers at the same references as
    before. *)
Theorem Shape_one_symbolizer (op : operation) s r :
  cache (this s) !! "_symbolizer" = Some r ->
  op <> call_clone ->
  dom (symbolizers (perform op s)) = dom (symbolizers s).
Proof.
  intros C N.
  assert (forall (e : result Handle)
                 (set : Handle -> PointSymbolizer -> PointSymbolizer),
             dom (symbolizers (bind (lift e) (fun h => setter (set h)) s).2)
             = dom (symbolizers s)) as S.
  { intros e set. unfold bind at 1, lift. destruct e as [h|err];
      [now apply (setter_same_objects _ s r) | reflexivity]. }
  destruct op; simpl; try apply S; try contradiction;
    try (unfold Shape_get_name, Shape_get_size, Shape_get_opacity,
           Shape_get_rotation, Shape_get_fill, Shape_get_stroke;
         now rewrite (getter_cached _ s r C)).
  - now rewrite (get__symbolizer_cached s r C).
  - now rewrite (Shape_config_cached s r C).
  - unfold Shape_toFullString, Shape_get_name, Shape_get_size.
    unfold bind at 1.
    pose proof (getter_cached wellKnownName s r C) as E.
    destruct (getter wellKnownName s) as [[h|e] s1]; simpl in E; subst s1;
      [|reflexivity].
    unfold bind at 1.
    pose proof (getter_cached size s r C) as E.
    destruct (getter size s) as [[h'|e] s1]; simpl in E; subst s1; reflexivity.
Qed.

(** *** [clone] *)

Lemma assign_all_apart (entries : list (string * value)) : forall s r0 p0,
  symbolizers s !! r0 = Some p0 ->
  cache (this s) !! "_symbolizer" <> Some r0 ->
  cache (this (assign_all entries s).2) !! "_symbolizer" <> Some r0.
Proof.
  induction entries as [|kv rest IH]; intros s r0 p0 S0 N; simpl.
  - exact N.
  - destruct (Shape_assign_frame kv s r0 p0 S0 N) as [S1 N1].
    unfold bind. destruct (Shape_assign kv s) as [[u|e] s1]; simpl in *.
    + now apply (IH s1 r0 p0).
    + exact N1.
Qed.

Lemma Shape_constructor_apart config s r0 p0 :
  symbolizers s !! r0 = Some p0 ->
  cache (this (Shape_constructor config s).2) !! "_symbolizer" <> Some r0.
Proof.
  intros S0. unfold Shape_constructor, Symbolizer_constructor.
  unfold bind at 1, modify.
  destruct (truthy (Shape_constructor_config config)).
  - apply (assign_all_apart _ _ r0 p0); [exact S0|]. simpl.
    now rewrite lookup_empty.
  - simpl. now rewrite lookup_empty.
Qed.

(** X24.  Where expressions, fills and strokes obey the round-trip law,
    [clone()] on a well-formed shape returns another shape with the same
    [config]; the receiver is as it was, and the clone's symbolizer is an
    object of its own, not the receiver's. *)
Theorem Shape_clone_copy s p :
  roundtrip Expression_constructor Expression_config ->
  roundtrip Fill_constructor Fill_config ->
  roundtrip Stroke_constructor Stroke_config ->
  view s = Some p ->
  exists clone s' p',
    Shape_clone s = (OK clone, s') /\
    view s' = Some p /\
    view {| this := clone; symbolizers := symbolizers s' |} = Some p' /\
    symbolizer_config p' = symbolizer_config p /\
    cache clone !! "_symbolizer" <> cache (this s') !! "_symbolizer".
Proof.
  intros LE LF LS V.
  destruct (Shape_config_cases s p V) as (s1 & E & V1 & r & C1).
  assert (symbolizers s1 !! r = Some p) as S1
    by (unfold view in V1; now rewrite C1 in V1).
  destruct (Shape_constructor_config_of LE LF LS p s1)
    as (s2 & p' & E2 & V2 & C2).
  pose proof (Shape_constructor_frame (symbolizer_config p) s1 r p S1) as F.
  pose proof (Shape_constructor_apart (symbolizer_config p) s1 r p S1) as A.
  rewrite E2 in F, A. simpl in F, A.
  exists (this s2), {| this := this s1; symbolizers := symbolizers s2 |}, p'.
  unfold Shape_clone. rewrite (bind_step _ _ _ _ _ E), E2.
  split; [reflexivity|].
  split; [unfold view; simpl; now rewrite C1|].
  split; [exact V2|]. split; [exact C2|].
  simpl. now rewrite C1.
Qed.
End StyleExtras.

(** * The further properties on the reference collaborators *)

Lemma Schema_constructor_fields_witness :
  exists hs,
    Forall2 (fun f h => as_Field f = OK h)
            [Reference.the_geom; Reference.name_field] hs /\
    Schema_fields Samples.cities_schema = OK hs /\
    Schema_fieldNames Samples.cities_schema = OK (map Field_name hs).
Proof.
  exact (Schema_constructor_fields Reference.cities [] Samples.cities_schema
           Samples.cities_trace _ eq_refl eq_refl eq_refl).
Defined.

Lemma Schema_constructor_trace_witness :
  exists name hs,
    Schema_name Samples.cities_schema = OK name /\
    Schema_fields Samples.cities_schema = OK hs /\
    Samples.cities_trace
    = [] ++ [new_SimpleFeatureTypeBuilder; setName name]
         ++ concat (map calls_of hs) ++ [buildFeatureType].
Proof.
  exact (Schema_constructor_trace Reference.cities [] Samples.cities_schema
           Samples.cities_trace eq_refl eq_refl).
Defined.

Lemma Schema_constructor_field_error_witness :
  Schema_constructor
    (VArray [Reference.name_field; VNum 3; Reference.the_geom]) []
  = (Throw (Error "Field config must include name property."),
     [new_SimpleFeatureTypeBuilder; setName "feature";
      add (Reference.descriptor "name" "String" None)]).
Proof.
  exact (Schema_constructor_field_error
           (VArray [Reference.name_field; VNum 3; Reference.the_geom]) []
           [Reference.name_field] (VNum 3) [Reference.the_geom]
           [Reference.descriptor "name" "String" None] _
           eq_refl eq_refl eq_refl eq_refl).
Defined.

Lemma Schema_name_of_string_witness :
  Schema_name Samples.cities_schema = OK "cities".
Proof.
  exact (Schema_name_of_string Reference.cities [] Samples.cities_schema
           Samples.cities_trace "cities" eq_refl eq_refl eq_refl).
Defined.


Lemma Schema_config_handled_witness :
  truthy Reference.feature_config = true /\
  Schema_handles Reference.feature_config = true /\
  member Reference.feature_config "type" = VStr "Schema".
Proof.
  exact (Schema_config_handled Reference.feature_schema
           Reference.feature_config eq_refl).
Defined.


Lemma Schema_clone_copy_witness :
  exists clone t',
    Schema_clone Reference.abc VUndefined [] = (OK clone, t') /\
    Schema_fields clone
    = OK [Reference.descriptor "a" "String" None;
          Reference.descriptor "b" "String" None;
          Reference.descriptor "c" "String" None] /\
    Schema_name clone = OK "feature".
Proof.
  exact (Schema_clone_copy Reference.abc _ "feature" VUndefined []
           eq_refl eq_refl eq_refl).
Defined.

Lemma Schema_clone_undefined_element_witness :
  Schema_clone Reference.abc
    (VObject [("fields", VArray [Reference.field_d; VNull])]) []
  = (Throw TypeError, []).
Proof.
  apply (Schema_clone_undefined_element Reference.abc
           [Reference.descriptor "a" "String" None;
            Reference.descriptor "b" "String" None;
            Reference.descriptor "c" "String" None]
           (VObject [("fields", VArray [Reference.field_d; VNull])])
           [Reference.field_d; VNull] [] eq_refl eq_refl).
  exists VNull. split; [right; left | reflexivity].
Defined.

Lemma Schema_get_fieldNames_witness :
  (forall n, exists v,
      Schema_get Samples.cities_schema (VStr n) = OK v /\
      (n ∈ ["the_geom"; "name"] ->
       exists h, v = VInstance Field h /\ Field_name h = n) /\
      (n ∉ ["the_geom"; "name"] -> v = VUndefined)) /\
  (forall w : value Reference.handle,
      (forall s, w <> VStr s) ->
      Schema_get Samples.cities_schema w = OK VUndefined).
Proof.
  exact (Schema_get_fieldNames Samples.cities_schema ["the_geom"; "name"]
           eq_refl).
Defined.

Lemma Schema_shell_witness :
  exists shell : Schema (Handle := Reference.handle),
    Schema_constructor VNull [] = (OK shell, []) /\
    Schema_name shell = Throw TypeError /\
    Schema_fields shell = Throw TypeError /\
    Schema_fieldNames shell = Throw TypeError /\
    Schema_config shell = Throw TypeError /\
    (forall w, Schema_get shell w = Throw TypeError) /\
    (forall c t', Schema_clone shell c t' = (Throw TypeError, t')).
Proof. exact (Schema_shell VNull [] eq_refl). Defined.

Lemma Schema_fromValues_fields_witness :
  exists this t',
    Schema_fromValues Samples.field_of_value
      (VObject [("name", VStr "Oslo"); ("population", VNum 700000)]) []
    = (OK this, t') /\
    Schema_name this = OK "feature" /\
    Schema_fields this
    = OK [Reference.descriptor "name" "String" None;
          Reference.descriptor "population" "Double" None].
Proof.
  apply (Schema_fromValues_fields Samples.field_of_value).
  repeat constructor.
Defined.

Lemma Schema_toFullString_no_fields_witness :
  Schema_toFullString Samples.no_fields
  = Schema_toFullString Samples.unnamed_field /\
  Schema_toFullString Samples.no_fields
  = OK ("name: " +:+ quote +:+ "empty" +:+ quote +:+ ", fields: ["
        +:+ quote +:+ quote +:+ "]").
Proof.
  exact (Schema_toFullString_no_fields Samples.no_fields
           Samples.unnamed_field "empty" eq_refl eq_refl eq_refl eq_refl).
Defined.

Lemma Shape_assignment_one_slot_witness :
  exists h,
    view (Shape_set_opacity (VNum 0.5) Reference.empty_state).2
    = Some (setOpacity h default_symbolizer).
Proof.
  destruct (Shape_assignment_one_slot (VNum 0.5) Reference.empty_state
              default_symbolizer
              (Shape_set_opacity (VNum 0.5) Reference.empty_state).2 eq_refl)
    as (_ & _ & opacity_slot & _).
  apply opacity_slot. vm_compute. reflexivity.
Defined.

Lemma Shape_assignment_rejected_witness :
  (Shape_set_opacity (VNum 1.5) Reference.empty_state).2
  = Reference.empty_state.
Proof.
  destruct (Shape_assignment_rejected (VNum 1.5) Reference.empty_state
              (Error "Opacity must be a number between 0 and 1 (inclusive)")
              (Shape_set_opacity (VNum 1.5) Reference.empty_state).2)
    as (_ & _ & opacity_rejected & _).
  - eexists. reflexivity.
  - apply opacity_rejected. vm_compute. reflexivity.
Defined.

Lemma Shape_opacity_rotation_type_witness :
  Shape_set_opacity (VStr "half") Reference.empty_state
  = (Throw (Error "Shape opacity cannot be type: string"),
     Reference.empty_state) /\
  Shape_set_rotation (VStr "half") Reference.empty_state
  = (Throw (Error "Shape rotation cannot be type: string"),
     Reference.empty_state).
Proof.
  apply (Shape_opacity_rotation_type (VStr "half") Reference.empty_state);
    discriminate.
Defined.

Lemma Shape_rotation_any_number_witness :
  exists s' s'',
    Shape_set_rotation (VNum (-90)) Reference.empty_state = (OK tt, s') /\
    Shape_get_rotation s' = (OK (Reference.literal (-90)), s'').
Proof.
  exact (Shape_rotation_any_number (-90) Reference.empty_state
           (ex_intro _ default_symbolizer eq_refl)).
Defined.

Lemma Shape_opacity_number_witness :
  (exists s', Shape_set_opacity (VNum nan) Reference.empty_state = (OK tt, s'))
  <-> PrimFloat.ltb nan 0 = false /\ PrimFloat.ltb 1 nan = false.
Proof.
  apply (Shape_opacity_number nan Reference.empty_state).
  eexists. reflexivity.
Defined.

Lemma Shape_assignment_of_instance_witness :
  exists s',
    Shape_set_fill (VInstance Fill (Reference.paint "#ff0000"))
                   Reference.empty_state = (OK tt, s') /\
    view s' = Some (setFill (Reference.paint "#ff0000") default_symbolizer).
Proof.
  destruct (Shape_assignment_of_instance (Reference.paint "#ff0000")
              Reference.empty_state default_symbolizer eq_refl)
    as (_ & _ & _ & _ & fill_slot & _).
  exact fill_slot.
Defined.

Lemma Shape_expression_rejected_witness :
  Shape_set_name (VObject [("type", VStr "Expression")]) Reference.empty_state
  = (Throw (Error "Expression config must include text."),
     Reference.empty_state) /\
  Shape_set_opacity (VObject [("type", VStr "Expression")])
                    Reference.empty_state
  = (Throw (Error "Shape opacity must be a number or an expression"),
     Reference.empty_state).
Proof.
  destruct (@Shape_expression_rejected Reference.handle Reference.style
              [("type", VStr "Expression")]
              (Error "Expression config must include text.")
              Reference.empty_state eq_refl)
    as (name_error & _ & opacity_error & _).
  split; [exact name_error | exact opacity_error].
Defined.

Lemma Shape_config_stable_witness :
  Shape_config (Shape_config Reference.star).2
  = (OK Reference.star_config, (Shape_config Reference.star).2).
Proof.
  apply (Shape_config_stable Reference.star). vm_compute. reflexivity.
Defined.

Lemma Shape_clone_copy_witness :
  exists clone s' p',
    Shape_clone Reference.empty_state = (OK clone, s') /\
    view s' = Some default_symbolizer /\
    view {| this := clone; symbolizers := symbolizers s' |} = Some p' /\
    symbolizer_config p' = symbolizer_config default_symbolizer /\
    cache clone !! "_symbolizer" <> cache (this s') !! "_symbolizer".
Proof.
  exact (Shape_clone_copy Reference.empty_state default_symbolizer
           reference_Expression_roundtrip
           (reference_paint_roundtrip "Fill")
           (reference_paint_roundtrip "Stroke") eq_refl).
Defined.

Lemma Shape_one_symbolizer_witness :
  dom (symbolizers (perform (set_opacity (VNum 0.5)) Reference.star))
  = dom (symbolizers Reference.star).
Proof.
  apply (Shape_one_symbolizer (set_opacity (VNum 0.5)) Reference.star 0).
  - vm_compute. reflexivity.
  - discriminate.
Defined.
